(** * Pilluminate: the virtual LED state machine and the LED collection

    A shallow embedding of [VirtualLED.cpp] and [UserInterface.cpp].

    - A [VirtualLED] object is a record of its private members; every
      member function is a function from the old record to the new one.
    - The two [QTimer]s owned by an LED are records of what the program
      can observe of them: whether they run and at which interval.
    - [UserInterface] is the list of its LEDs (in display order) and the
      [nextLedId] counter; a slot returns the new state together with the
      warning boxes it opened.
    - Modal pickers ([QColorDialog::getColor], [QInputDialog::getInt]) are
      inputs of the slot that opens them.
    - [qDebug] logging, style sheets and the grid widgets carry no state
      that any other code reads back, and are left out. *)

From Stdlib Require Import String.
From Stdlib Require Import ZArith List Bool Lia FinFun.
Import ListNotations.

Local Open Scope Z_scope.

(** ** C++ [int] *)

Definition INT_MAX : Z := 2147483647.

(** Two's-complement reduction of a mathematical integer to a 32-bit
    [int]; arithmetic on [int] members is followed by it. *)
Definition wrap32 (z : Z) : Z := (z + 2 ^ 31) mod 2 ^ 32 - 2 ^ 31.

(** ** The Qt value types the program uses *)

Module QColor.

Inductive Spec : Type := Invalid | Rgb | Hsv | Cmyk | Hsl | ExtendedRgb.

(** A colour: its specification and four 16-bit channels. *)
Record t : Type := mk {
  cspec : Spec;
  alpha : Z;
  red   : Z;
  green : Z;
  blue  : Z
}.

Definition Spec_eq_dec (a b : Spec) : {a = b} + {a <> b}.
Proof. decide equality. Defined.

Definition eq_dec (a b : t) : {a = b} + {a <> b}.
Proof. decide equality; try apply Z.eq_dec; apply Spec_eq_dec. Defined.

(** [operator==] and [operator!=]. *)
Definition eqb (a b : t) : bool := if eq_dec a b then true else false.
Definition neqb (a b : t) : bool := negb (eqb a b).

Definition isValid (c : t) : bool :=
  match cspec c with Invalid => false | _ => true end.

(** The default-constructed colour, returned by a cancelled
    [QColorDialog::getColor]. *)
Definition invalid : t := mk Invalid 65535 0 0 0.

(** [Qt::transparent] and [Qt::white]. *)
Definition transparent : t := mk Rgb 0 0 0 0.
Definition white : t := mk Rgb 65535 65535 65535 65535.

Definition fromRgb (r g b : Z) : t :=
  mk Rgb 65535 (r * 257) (g * 257) (b * 257).

End QColor.

Module QTimer.

(** What the program observes of a timer.  No timer of this program is
    ever made single-shot ([setSingleShot] is never called and the
    property defaults to false), so a running timer keeps running after
    each [timeout] until [stop] is called. *)
Record t : Type := mk {
  isActive : bool;
  interval : Z
}.

(** [new QTimer(parent)] *)
Definition new : t := mk false 0.

(** [start(msec)]: sets the interval and (re)starts the timer. *)
Definition start (_ : t) (msec : Z) : t := mk true msec.

(** [stop()] *)
Definition stop (tm : t) : t := mk false (interval tm).

(** The state of the timer after it has emitted [timeout]: a repeating
    timer is re-armed with the same interval. *)
Definition afterTimeout (tm : t) : t := tm.

End QTimer.

(** ** VirtualLED.cpp *)

Module VirtualLED.

Record t : Type := mk {
  currentColor : QColor.t;
  ledId        : Z;
  state        : bool;
  blinkOn      : bool;
  blinkTimer   : QTimer.t;
  blinkSpeed   : Z;
  offTimer     : QTimer.t
}.

(** Assignments to single members. *)
Definition set_currentColor (c : QColor.t) (l : t) : t :=
  mk c (ledId l) (state l) (blinkOn l) (blinkTimer l) (blinkSpeed l) (offTimer l).
Definition set_ledId (i : Z) (l : t) : t :=
  mk (currentColor l) i (state l) (blinkOn l) (blinkTimer l) (blinkSpeed l) (offTimer l).
Definition set_state (b : bool) (l : t) : t :=
  mk (currentColor l) (ledId l) b (blinkOn l) (blinkTimer l) (blinkSpeed l) (offTimer l).
Definition set_blinkOn (b : bool) (l : t) : t :=
  mk (currentColor l) (ledId l) (state l) b (blinkTimer l) (blinkSpeed l) (offTimer l).
Definition set_blinkTimer (tm : QTimer.t) (l : t) : t :=
  mk (currentColor l) (ledId l) (state l) (blinkOn l) tm (blinkSpeed l) (offTimer l).
Definition set_blinkSpeed (s : Z) (l : t) : t :=
  mk (currentColor l) (ledId l) (state l) (blinkOn l) (blinkTimer l) s (offTimer l).
Definition set_offTimer (tm : QTimer.t) (l : t) : t :=
  mk (currentColor l) (ledId l) (state l) (blinkOn l) (blinkTimer l) (blinkSpeed l) tm.

(** [VirtualLED::VirtualLED(id, parent)] *)
Definition new (id : Z) : t :=
  set_blinkSpeed 0
    (set_blinkTimer QTimer.new
       (mk QColor.transparent id false true QTimer.new 0 QTimer.new)).

(** [setColor] *)
Definition setColor (l : t) (color : QColor.t) : t :=
  let l := set_currentColor color l in
  set_state (QColor.neqb color QColor.transparent) l.

Definition getId (l : t) : Z := ledId l.

Definition setId (l : t) (newId : Z) : t := set_ledId newId l.

(** [isOn] *)
Definition isOn (l : t) : bool :=
  QColor.neqb (currentColor l) QColor.transparent.

(** [turnOn] *)
Definition turnOn (l : t) : t :=
  if negb (state l) then
    let l := set_state true l in
    let l := set_blinkOn true l in
    let l := setColor l QColor.white in
    set_offTimer (QTimer.stop (offTimer l)) l
  else l.

(** [turnOff] *)
Definition turnOff (l : t) : t :=
  if state l then
    let l := set_state false l in
    let l := set_blinkTimer (QTimer.stop (blinkTimer l)) l in
    let l := set_blinkOn true l in
    setColor l QColor.transparent
  else l.

(** [setBlinkSpeed] *)
Definition setBlinkSpeed (l : t) (speed : Z) : t :=
  let l := set_blinkSpeed speed l in
  let l := set_blinkTimer (QTimer.stop (blinkTimer l)) l in
  if blinkSpeed l >? 0
  then set_blinkTimer (QTimer.start (blinkTimer l) (blinkSpeed l)) l
  else set_blinkOn true l.

Definition getBlinkSpeed (l : t) : Z := blinkSpeed l.

(** [setDuration] *)
Definition setDuration (l : t) (seconds : Z) : t :=
  if seconds >? 0
  then set_offTimer (QTimer.start (offTimer l) (wrap32 (seconds * 1000))) l
  else l.

(** [stopOffTimer] *)
Definition stopOffTimer (l : t) : t :=
  set_offTimer (QTimer.stop (offTimer l)) l.

(** [mousePressEvent]; [left] tells whether the button is
    [Qt::LeftButton]. *)
Definition mousePressEvent (l : t) (left : bool) : t :=
  if left then (if state l then turnOff l else turnOn l) else l.

(** The lambda connected to [blinkTimer]'s [timeout] in the constructor.
    It runs only when that timer is running. *)
Definition blinkTimeout (l : t) : t :=
  if QTimer.isActive (blinkTimer l) then
    let l := set_blinkTimer (QTimer.afterTimeout (blinkTimer l)) l in
    set_blinkOn (negb (blinkOn l)) l
  else l.

(** [offTimer]'s [timeout] is connected to [turnOff] in the constructor. *)
Definition offTimeout (l : t) : t :=
  if QTimer.isActive (offTimer l) then
    let l := set_offTimer (QTimer.afterTimeout (offTimer l)) l in
    turnOff l
  else l.

(** The three dialogs of [contextMenuEvent], offered only while [state]
    holds; the argument is what the dialog returned ([None]: cancelled).
    The signals they emit are handled by the owner. *)
Definition contextChangeColor (l : t) (selectedColor : QColor.t) : t :=
  if state l then
    if QColor.isValid selectedColor then setColor l selectedColor else l
  else l.

Definition contextSetBlinkSpeed (l : t) (input : option Z) : t :=
  if state l then
    match input with Some speed => setBlinkSpeed l speed | None => l end
  else l.

Definition contextSetDuration (l : t) (input : option Z) : t :=
  if state l then
    match input with Some duration => setDuration l duration | None => l end
  else l.

(** The public member functions that change an LED. *)
Inductive call : Type :=
| SetColor (color : QColor.t)
| SetId (newId : Z)
| TurnOn
| TurnOff
| SetBlinkSpeed (speed : Z)
| SetDuration (seconds : Z)
| StopOffTimer.

(** The handlers the event loop runs on an LED. *)
Inductive event : Type :=
| MousePress (left : bool)
| BlinkTimeout
| OffTimeout
| ContextChangeColor (selectedColor : QColor.t)
| ContextSetBlinkSpeed (input : option Z)
| ContextSetDuration (input : option Z).

Inductive op : Type :=
| Call (c : call)
| Event (e : event).

Definition invoke (l : t) (c : call) : t :=
  match c with
  | SetColor color => setColor l color
  | SetId i => setId l i
  | TurnOn => turnOn l
  | TurnOff => turnOff l
  | SetBlinkSpeed s => setBlinkSpeed l s
  | SetDuration s => setDuration l s
  | StopOffTimer => stopOffTimer l
  end.

Definition handle (l : t) (e : event) : t :=
  match e with
  | MousePress b => mousePressEvent l b
  | BlinkTimeout => blinkTimeout l
  | OffTimeout => offTimeout l
  | ContextChangeColor c => contextChangeColor l c
  | ContextSetBlinkSpeed i => contextSetBlinkSpeed l i
  | ContextSetDuration i => contextSetDuration l i
  end.

Definition step (l : t) (o : op) : t :=
  match o with
  | Call c => invoke l c
  | Event e => handle l e
  end.

Definition run (l : t) (os : list op) : t := fold_left step os l.

(** Operations that reach [setBlinkSpeed]. *)
Definition isSetBlinkSpeed (o : op) : bool :=
  match o with
  | Call (SetBlinkSpeed _) | Event (ContextSetBlinkSpeed _) => true
  | _ => false
  end.

(** The entries [contextMenuEvent] puts in the menu, in order: "Remove"
    always, the three dialogs only while [state] holds. *)
Definition contextMenuActions (l : t) : list string :=
  "Remove"%string
  :: (if state l
      then ["Change Color"; "Set Blinking Speed"; "Set Duration"]%string
      else []).

(** Operations that reach [setId]. *)
Definition isSetId (o : op) : bool :=
  match o with
  | Call (SetId _) => true
  | _ => false
  end.

End VirtualLED.

(** ** UserInterface.cpp *)

Module UserInterface.

(** [QMessageBox::warning(this, title, text)] *)
Inductive Dialog : Type :=
| Warning (title text : string).

(** [leds] is the [QList<VirtualLED*>]: every object is held once, so an
    object is identified by its position in the list and the list holds
    the objects themselves. *)
Record t : Type := mk {
  leds      : list VirtualLED.t;
  nextLedId : Z
}.

(** [UserInterface::UserInterface] *)
Definition new : t := mk [] 1.

(** Applies [f] in place to the object at position [i]. *)
Fixpoint updateAt (i : nat) (f : VirtualLED.t -> VirtualLED.t)
    (l : list VirtualLED.t) : list VirtualLED.t :=
  match l, i with
  | [], _ => []
  | x :: r, O => f x :: r
  | x :: r, S j => x :: updateAt j f r
  end.

(** [leds.removeOne(p)] for the object at position [i]. *)
Fixpoint removeAt (i : nat) (l : list VirtualLED.t) : list VirtualLED.t :=
  match l, i with
  | [], _ => []
  | _ :: r, O => r
  | x :: r, S j => x :: removeAt j r
  end.

(** [findLEDById]: the position of the first LED whose id is [id];
    [None] is [nullptr]. *)
Fixpoint findLEDById (l : list VirtualLED.t) (id : Z) : option nat :=
  match l with
  | [] => None
  | led :: r =>
      if VirtualLED.getId led =? id then Some O
      else option_map S (findLEDById r id)
  end.

(** [addNewLED] *)
Definition addNewLED (ui : t) : t :=
  let newLed := VirtualLED.new (nextLedId ui) in
  mk (leds ui ++ [newLed]) (wrap32 (nextLedId ui + 1)).

(** [turnAllLEDsOn] *)
Definition turnAllLEDsOn (ui : t) : t * list Dialog :=
  match leds ui with
  | [] =>
      (ui, [Warning "Operation Failed" "<b>No LEDs available to turn on.</b>"])
  | _ :: _ =>
      let allLedsAlreadyOn := forallb VirtualLED.isOn (leds ui) in
      if allLedsAlreadyOn then
        (ui, [Warning "Operation Failed" "<b>All LEDs are already turned on.</b>"])
      else
        (mk (map (fun led =>
                    let led :=
                      if negb (VirtualLED.isOn led)
                      then VirtualLED.setColor led QColor.white else led in
                    VirtualLED.stopOffTimer led)
                 (leds ui))
            (nextLedId ui),
         [])
  end.

(** [turnAllLEDsOff] *)
Definition turnAllLEDsOff (ui : t) : t * list Dialog :=
  match leds ui with
  | [] =>
      (ui, [Warning "Operation Failed" "<b>No LEDs available to turn off.</b>"])
  | _ :: _ =>
      let allAlreadyOff := negb (existsb VirtualLED.isOn (leds ui)) in
      let ui' :=
        mk (map (fun led =>
                   if VirtualLED.isOn led then VirtualLED.turnOff led else led)
                (leds ui))
           (nextLedId ui) in
      if allAlreadyOff then
        (ui', [Warning "Operation Ineffective" "<b>All LEDs are already off.</b>"])
      else (ui', [])
  end.

(** [removeAllLEDs] *)
Definition removeAllLEDs (ui : t) : t * list Dialog :=
  match leds ui with
  | [] =>
      (ui, [Warning "Operation Failed" "<b>No LEDs available to remove.</b>"])
  | _ :: _ => (mk [] 1, [])
  end.

(** The loop of [reassignLEDIds]: [id] is the local counter; the result
    is the renumbered list and the counter after the loop. *)
Fixpoint reassignFrom (id : Z) (l : list VirtualLED.t)
    : list VirtualLED.t * Z :=
  match l with
  | [] => ([], id)
  | led :: r =>
      let (r', id') := reassignFrom (wrap32 (id + 1)) r in
      (VirtualLED.setId led id :: r', id')
  end.

(** [reassignLEDIds] *)
Definition reassignLEDIds (ui : t) : t :=
  let (l, id) := reassignFrom 1 (leds ui) in
  mk l id.

(** [removeLED] *)
Definition removeLED (ui : t) (id : Z) : t :=
  match findLEDById (leds ui) id with
  | Some ledToRemove =>
      reassignLEDIds (mk (removeAt ledToRemove (leds ui)) (nextLedId ui))
  | None => ui
  end.

(** [changeLEDColor] *)
Definition changeLEDColor (ui : t) (id : Z) (color : QColor.t) : t :=
  match findLEDById (leds ui) id with
  | Some led =>
      mk (updateAt led (fun l => VirtualLED.setColor l color) (leds ui))
         (nextLedId ui)
  | None => ui
  end.

(** [changeAllLEDsColor]; [color] is what [QColorDialog::getColor]
    returns if it is opened. *)
Definition changeAllLEDsColor (ui : t) (color : QColor.t) : t * list Dialog :=
  match leds ui with
  | [] =>
      (ui, [Warning "Operation Failed" "<b>No LEDs available to change color.</b>"])
  | _ :: _ =>
      let isAnyLedOn := existsb VirtualLED.isOn (leds ui) in
      if negb isAnyLedOn then
        (ui, [Warning "Operation Failed"
                      "<b>At least one LED must be on to change colors.</b>"])
      else if QColor.isValid color then
        (mk (map (fun led =>
                    if VirtualLED.isOn led
                    then VirtualLED.setColor led color else led)
                 (leds ui))
            (nextLedId ui),
         [])
      else (ui, [])
  end.

(** [setAllLEDsBlinkSpeed]; [input] is what [QInputDialog::getInt]
    returns if it is opened ([None]: not accepted). *)
Definition setAllLEDsBlinkSpeed (ui : t) (input : option Z) : t * list Dialog :=
  match leds ui with
  | [] =>
      (ui, [Warning "Operation Failed"
                    "<b>No LEDs available to set blinking speed.</b>"])
  | _ :: _ =>
      let isAnyLEDBlinkingOrOn :=
        existsb (fun led =>
                   VirtualLED.isOn led || (VirtualLED.getBlinkSpeed led >? 0))
                (leds ui) in
      if negb isAnyLEDBlinkingOrOn then
        (ui, [Warning "Operation Failed"
                      "<b>At least one LED must be on to set blinking speed.</b>"])
      else
        match input with
        | Some speed =>
            (mk (map (fun led =>
                        if VirtualLED.isOn led
                        then VirtualLED.setBlinkSpeed led speed else led)
                     (leds ui))
                (nextLedId ui),
             [])
        | None => (ui, [])
        end
  end.

(** [setDurationForOnLEDs] *)
Definition setDurationForOnLEDs (ui : t) (input : option Z) : t * list Dialog :=
  match leds ui with
  | [] =>
      (ui, [Warning "Operation Failed" "<b>No LEDs available to set duration.</b>"])
  | _ :: _ =>
      if negb (existsb VirtualLED.isOn (leds ui)) then
        (ui, [Warning "Operation Failed"
                      "<b>At least one LED must be on to set duration.</b>"])
      else
        match input with
        | Some duration =>
            (mk (map (fun led =>
                        if VirtualLED.isOn led
                        then VirtualLED.setDuration led duration else led)
                     (leds ui))
                (nextLedId ui),
             [])
        | None => (ui, [])
        end
  end.

(** An event handled by the LED at position [i].  When the colour
    dialog of its context menu returns a valid colour the LED emits
    [colorChanged(ledId, selectedColor)], which is connected to
    [changeLEDColor]. *)
Definition ledEvent (ui : t) (i : nat) (e : VirtualLED.event) : t :=
  match nth_error (leds ui) i with
  | None => ui
  | Some l =>
      let ui' :=
        mk (updateAt i (fun l => VirtualLED.handle l e) (leds ui))
           (nextLedId ui) in
      match e with
      | VirtualLED.ContextChangeColor selectedColor =>
          if VirtualLED.state l && QColor.isValid selectedColor
          then changeLEDColor ui' (VirtualLED.getId l) selectedColor
          else ui'
      | _ => ui'
      end
  end.

(** "Remove" chosen in the context menu of the LED at position [i]:
    it emits [removed(ledId)], which is connected to [removeLED]. *)
Definition contextRemove (ui : t) (i : nat) : t :=
  match nth_error (leds ui) i with
  | None => ui
  | Some l => removeLED ui (VirtualLED.getId l)
  end.

(** Everything that can happen to the window. *)
Inductive op : Type :=
| AddNewLED
| TurnAllLEDsOn
| TurnAllLEDsOff
| RemoveAllLEDs
| RemoveLED (id : Z)
| ChangeLEDColor (id : Z) (color : QColor.t)
| ChangeAllLEDsColor (color : QColor.t)
| SetAllLEDsBlinkSpeed (input : option Z)
| SetDurationForOnLEDs (input : option Z)
| LedEvent (i : nat) (e : VirtualLED.event)
| ContextRemove (i : nat).

Definition step (ui : t) (o : op) : t :=
  match o with
  | AddNewLED => addNewLED ui
  | TurnAllLEDsOn => fst (turnAllLEDsOn ui)
  | TurnAllLEDsOff => fst (turnAllLEDsOff ui)
  | RemoveAllLEDs => fst (removeAllLEDs ui)
  | RemoveLED id => removeLED ui id
  | ChangeLEDColor id color => changeLEDColor ui id color
  | ChangeAllLEDsColor color => fst (changeAllLEDsColor ui color)
  | SetAllLEDsBlinkSpeed input => fst (setAllLEDsBlinkSpeed ui input)
  | SetDurationForOnLEDs input => fst (setDurationForOnLEDs ui input)
  | LedEvent i e => ledEvent ui i e
  | ContextRemove i => contextRemove ui i
  end.

Definition run (ui : t) (os : list op) : t := fold_left step os ui.

(** The ids in display order, and the list [1; 2; ...; n]. *)
Definition ids (ui : t) : list Z := map VirtualLED.getId (leds ui).

Definition upto (n : nat) : list Z := map Z.of_nat (seq 1 n).

(** An LED with its id blanked: what renumbering must not change. *)
Definition body (l : VirtualLED.t) : VirtualLED.t := VirtualLED.setId l 0.

(** [updateGridLayout]: the grid is emptied and every LED is put back,
    the LED at position [i] of the list in cell [(i / cols, i % cols)].
    The result lists the cells in the order of [leds]; [i] is the [int]
    loop counter. *)
Definition cols : Z := 5.

Fixpoint gridFrom (i : Z) (l : list VirtualLED.t) : list (Z * Z) :=
  match l with
  | [] => []
  | _ :: r => (Z.quot i cols, Z.rem i cols) :: gridFrom (wrap32 (i + 1)) r
  end.

Definition updateGridLayout (ui : t) : list (Z * Z) := gridFrom 0 (leds ui).

(** The operations that add or remove LEDs (those that end in
    [updateGridLayout]). *)
Definition changesMembership (o : op) : bool :=
  match o with
  | AddNewLED | RemoveAllLEDs | RemoveLED _ | ContextRemove _ => true
  | _ => false
  end.

End UserInterface.

(** ** Predicates the properties are stated with *)

Module Props.

Import VirtualLED.

(** The private flag agrees with the colour test of [isOn]. *)
Definition flagOk (l : t) : Prop := state l = isOn l.


(** On, with the auto-off timer stopped. *)
Definition onUntimed (l : t) : bool :=
  isOn l && negb (QTimer.isActive (offTimer l)).

(** On and steady: blink timer stopped, phase visible. *)
Definition onSteady (l : t) : bool :=
  isOn l && negb (QTimer.isActive (blinkTimer l)) && blinkOn l.

(** [k] expiries of the blink timer, and of the auto-off timer. *)
Definition blinkTicks (k : nat) (l : t) : t := Nat.iter k blinkTimeout l.
Definition offTicks (k : nat) (l : t) : t := Nat.iter k offTimeout l.

Definition red : QColor.t := QColor.fromRgb 255 0 0.

(** Sample LEDs, each built from the constructor by public calls. *)
Definition ledBlinkingTimed : t :=
  setDuration (setBlinkSpeed (turnOn (new 1)) 500) 5.
Definition ledOffTimed : t :=
  turnOff (setDuration (turnOn (new 1)) 5).
Definition ledOnTimed : t :=
  setDuration (turnOn (new 1)) 2.
Definition ledOffBlinking : t :=
  setBlinkSpeed (new 1) 500.

(** *** The collection *)

(** What [turnAllLEDsOn] does to one LED when it goes through. *)
Definition turnedOn (l l' : t) : Prop :=
  isOn l' = true
  /\ QTimer.isActive (offTimer l') = false
  /\ (isOn l = false -> currentColor l' = QColor.white)
  /\ (isOn l = true -> currentColor l' = currentColor l)
  /\ getId l' = getId l
  /\ blinkTimer l' = blinkTimer l
  /\ blinkOn l' = blinkOn l
  /\ getBlinkSpeed l' = getBlinkSpeed l.

(** What [changeAllLEDsColor] does to one LED when a valid colour is
    picked. *)
Definition recoloured (color : QColor.t) (l l' : t) : Prop :=
  (isOn l = true -> l' = setColor l color /\ currentColor l' = color)
  /\ (isOn l = false -> l' = l).

(** Sample collections: three fresh LEDs; the same with the first one
    clicked on and given a one-second duration; the same with all three
    clicked on. *)
Definition uiThree : UserInterface.t :=
  UserInterface.run UserInterface.new
    [UserInterface.AddNewLED; UserInterface.AddNewLED; UserInterface.AddNewLED].

Definition uiFirstOnTimed : UserInterface.t :=
  UserInterface.run uiThree
    [UserInterface.LedEvent 0 (MousePress true);
     UserInterface.LedEvent 0 (ContextSetDuration (Some 1))].

Definition uiAllOn : UserInterface.t :=
  UserInterface.run uiThree
    [UserInterface.LedEvent 0 (MousePress true);
     UserInterface.LedEvent 1 (MousePress true);
     UserInterface.LedEvent 2 (MousePress true)].

(** The form of the id invariant that holds without a bound on the size
    of the collection. *)
Definition idsWrapped (ui : UserInterface.t) : Prop :=
  UserInterface.ids ui
  = map (fun k => wrap32 (Z.of_nat k + 1)) (seq 0 (length (UserInterface.leds ui)))
  /\ UserInterface.nextLedId ui
     = wrap32 (Z.of_nat (length (UserInterface.leds ui)) + 1).

(** *** Further predicates *)

(** What [turnAllLEDsOff] does to one LED. *)
Definition turnedOff (l l' : t) : Prop :=
  isOn l' = false
  /\ (isOn l = true ->
      QTimer.isActive (blinkTimer l') = false /\ blinkOn l' = true)
  /\ (isOn l = false -> l' = l)
  /\ offTimer l' = offTimer l
  /\ getId l' = getId l
  /\ getBlinkSpeed l' = getBlinkSpeed l.

(** A bulk command that applies [f] to the LEDs that are on and leaves
    the others alone. *)
Definition appliedToOn (f : t -> t) (l l' : t) : Prop :=
  (isOn l = true -> l' = f l) /\ (isOn l = false -> l' = l).

(** The window after the operations [os], as a function of them. *)
Definition reached (os : list UserInterface.op) : UserInterface.t :=
  UserInterface.run UserInterface.new os.

(** Three LEDs, all off, the second with a blink speed set while it was
    on. *)
Definition uiOffOneBlinking : UserInterface.t :=
  UserInterface.run uiThree
    [UserInterface.LedEvent 1 (MousePress true);
     UserInterface.LedEvent 1 (ContextSetBlinkSpeed (Some 300));
     UserInterface.LedEvent 1 (MousePress true)].


End Props.

(** * Properties of one LED *)

Import Props.

Lemma neqb_true_iff (a b : QColor.t) : QColor.neqb a b = true <-> a <> b.
Proof.
  unfold QColor.neqb, QColor.eqb.
  destruct (QColor.eq_dec a b); simpl; split; intro H; congruence.
Qed.

Lemma neqb_false_iff (a b : QColor.t) : QColor.neqb a b = false <-> a = b.
Proof.
  unfold QColor.neqb, QColor.eqb.
  destruct (QColor.eq_dec a b); simpl; split; intro H; congruence.
Qed.

Lemma neqb_refl (a : QColor.t) : QColor.neqb a a = false.
Proof. now apply neqb_false_iff. Qed.

Lemma white_on : QColor.neqb QColor.white QColor.transparent = true.
Proof. reflexivity. Qed.

Lemma isOn_iff (l : VirtualLED.t) :
  VirtualLED.isOn l = true <-> VirtualLED.currentColor l <> QColor.transparent.
Proof. apply neqb_true_iff. Qed.

Lemma isOn_setColor (l : VirtualLED.t) (c : QColor.t) :
  VirtualLED.isOn (VirtualLED.setColor l c) = QColor.neqb c QColor.transparent.
Proof. reflexivity. Qed.

Lemma state_setColor (l : VirtualLED.t) (c : QColor.t) :
  VirtualLED.state (VirtualLED.setColor l c) = QColor.neqb c QColor.transparent.
Proof. reflexivity. Qed.

Ltac led_cases l :=
  destruct l as [col lid st bon [bta bti] bsp [ota oti]]; simpl in *.

(** ** The flag invariant *)

Lemma flagOk_new (id : Z) : flagOk (VirtualLED.new id).
Proof. reflexivity. Qed.

Lemma flagOk_setColor l c : flagOk (VirtualLED.setColor l c).
Proof. reflexivity. Qed.

Lemma flagOk_turnOn l : flagOk l -> flagOk (VirtualLED.turnOn l).
Proof.
  unfold flagOk, VirtualLED.turnOn. intros H.
  destruct (VirtualLED.state l) eqn:E; simpl; first [reflexivity | congruence].
Qed.

Lemma flagOk_turnOff l : flagOk l -> flagOk (VirtualLED.turnOff l).
Proof.
  unfold flagOk, VirtualLED.turnOff. intros H.
  destruct (VirtualLED.state l) eqn:E; simpl; first [reflexivity | congruence].
Qed.

Lemma flagOk_setBlinkSpeed l s : flagOk l -> flagOk (VirtualLED.setBlinkSpeed l s).
Proof.
  unfold flagOk, VirtualLED.setBlinkSpeed. intros H. simpl.
  destruct (s >? 0); simpl; auto.
Qed.

Lemma flagOk_setDuration l s : flagOk l -> flagOk (VirtualLED.setDuration l s).
Proof.
  unfold flagOk, VirtualLED.setDuration. intros H.
  destruct (s >? 0); simpl; auto.
Qed.

Lemma flagOk_invoke l c : flagOk l -> flagOk (VirtualLED.invoke l c).
Proof.
  intros H. destruct c; simpl;
    auto using flagOk_setColor, flagOk_turnOn, flagOk_turnOff,
               flagOk_setBlinkSpeed, flagOk_setDuration.
Qed.

Lemma flagOk_handle l e : flagOk l -> flagOk (VirtualLED.handle l e).
Proof.
  intros H. destruct e as [left | | | c | i | i]; simpl.
  - unfold VirtualLED.mousePressEvent.
    destruct left; auto. destruct (VirtualLED.state l);
      auto using flagOk_turnOn, flagOk_turnOff.
  - unfold VirtualLED.blinkTimeout.
    destruct (QTimer.isActive (VirtualLED.blinkTimer l)); auto.
  - unfold VirtualLED.offTimeout.
    destruct (QTimer.isActive (VirtualLED.offTimer l)); auto.
    apply flagOk_turnOff. exact H.
  - unfold VirtualLED.contextChangeColor.
    destruct (VirtualLED.state l); auto.
    destruct (QColor.isValid c); auto using flagOk_setColor.
  - unfold VirtualLED.contextSetBlinkSpeed.
    destruct (VirtualLED.state l); auto.
    destruct i; auto using flagOk_setBlinkSpeed.
  - unfold VirtualLED.contextSetDuration.
    destruct (VirtualLED.state l); auto.
    destruct i; auto using flagOk_setDuration.
Qed.

Lemma flagOk_step l o : flagOk l -> flagOk (VirtualLED.step l o).
Proof. destruct o; simpl; auto using flagOk_invoke, flagOk_handle. Qed.

Lemma flagOk_run os : forall l, flagOk l -> flagOk (VirtualLED.run l os).
Proof.
  unfold VirtualLED.run.
  induction os as [| o os IH]; intros l H; simpl; auto using flagOk_step.
Qed.

(** C10.  After construction and after any sequence of public calls
    ([setColor], [setId], [turnOn], [turnOff], [setBlinkSpeed],
    [setDuration], [stopOffTimer]) and of handled events (click, timer
    expiries, context-menu dialogs), the private [state] flag is true
    exactly when [currentColor] differs from [Qt::transparent], so it
    always agrees with [isOn()]. *)
Theorem state_flag_tracks_color (id : Z) (os : list VirtualLED.op) :
  let l := VirtualLED.run (VirtualLED.new id) os in
  (VirtualLED.state l = true <-> VirtualLED.currentColor l <> QColor.transparent)
  /\ VirtualLED.isOn l = VirtualLED.state l.
Proof.
  intros l.
  assert (H : flagOk l) by (apply flagOk_run, flagOk_new).
  unfold flagOk in H. split.
  - rewrite H. apply isOn_iff.
  - symmetry. exact H.
Qed.

(** ** Turning off *)







(** ** Turning on *)

(** C5, as stated, fails: on an LED that is off while its auto-off timer
    still runs, [setColor] with a colour other than transparent turns the
    LED on and leaves that timer running. *)
Lemma setColor_on_keeps_offTimer :
  VirtualLED.isOn ledOffTimed = false
  /\ VirtualLED.state ledOffTimed = false
  /\ red <> QColor.transparent
  /\ VirtualLED.isOn (VirtualLED.setColor ledOffTimed red) = true
  /\ QTimer.isActive (VirtualLED.offTimer (VirtualLED.setColor ledOffTimed red)) = true
  /\ onUntimed (VirtualLED.setColor ledOffTimed red) = false.
Proof. repeat split. discriminate. Qed.

(** C5, amended.  On every LED that is off, [turnOn()] leaves the LED on
    with colour white and the auto-off timer stopped; [setColor(c)] with
    [c] other than transparent leaves the LED on with colour [c] and does
    not touch the auto-off timer. *)
Theorem on_transition (l : VirtualLED.t) (c : QColor.t) :
  flagOk l ->
  VirtualLED.isOn l = false ->
  c <> QColor.transparent ->
  (let l' := VirtualLED.turnOn l in
   VirtualLED.isOn l' = true
   /\ VirtualLED.state l' = true
   /\ VirtualLED.currentColor l' = QColor.white
   /\ QTimer.isActive (VirtualLED.offTimer l') = false)
  /\
  (let l' := VirtualLED.setColor l c in
   VirtualLED.isOn l' = true
   /\ VirtualLED.state l' = true
   /\ VirtualLED.currentColor l' = c
   /\ VirtualLED.offTimer l' = VirtualLED.offTimer l).
Proof.
  unfold flagOk. intros Hflag Hoff Hc. rewrite Hoff in Hflag.
  apply neqb_true_iff in Hc.
  split.
  - unfold VirtualLED.turnOn. rewrite Hflag. simpl. repeat split.
  - simpl. rewrite isOn_setColor. repeat split; assumption.
Qed.

Lemma on_transition_witness :
  QTimer.isActive (VirtualLED.offTimer (VirtualLED.turnOn ledOffTimed)) = false
  /\ VirtualLED.offTimer (VirtualLED.setColor ledOffTimed red)
     = VirtualLED.offTimer ledOffTimed.
Proof.
  destruct (on_transition ledOffTimed red) as [[_ [_ [_ H4]]] [_ [_ [_ H8]]]].
  - reflexivity.
  - reflexivity.
  - discriminate.
  - split; [exact H4 | exact H8].
Defined.

(** ** Blinking *)

Lemma blinkTicks_running (k : nat) (l : VirtualLED.t) :
  QTimer.isActive (VirtualLED.blinkTimer l) = true ->
  VirtualLED.blinkTimer (blinkTicks k l) = VirtualLED.blinkTimer l
  /\ VirtualLED.blinkOn (blinkTicks k l)
     = (if Nat.even k then VirtualLED.blinkOn l else negb (VirtualLED.blinkOn l)).
Proof.
  intros Hact. unfold blinkTicks.
  induction k as [| k [IHt IHb]].
  - split; reflexivity.
  - rewrite Nat.even_succ, <- Nat.negb_even.
    rewrite Nat.iter_succ.
    set (x := Nat.iter k VirtualLED.blinkTimeout l) in *.
    unfold VirtualLED.blinkTimeout. rewrite IHt, Hact. simpl.
    rewrite IHb. split; [reflexivity |].
    destruct (Nat.even k); simpl; [reflexivity | apply negb_involutive].
Qed.

Lemma blinkTicks_stopped (k : nat) (l : VirtualLED.t) :
  QTimer.isActive (VirtualLED.blinkTimer l) = false ->
  blinkTicks k l = l.
Proof.
  intros Hact. unfold blinkTicks.
  induction k as [| k IH]; [reflexivity |].
  rewrite Nat.iter_succ, IH. unfold VirtualLED.blinkTimeout.
  rewrite Hact. reflexivity.
Qed.

(** C7.  For every LED and every speed: [setBlinkSpeed] with a positive
    speed stores it and leaves the blink timer running at that interval,
    each expiry toggling the blink phase and re-arming the timer;
    [setBlinkSpeed(0)] stores 0, stops the blink timer and forces the
    phase to visible, after which no expiry changes the LED.  Neither
    depends on the speed set before. *)
Theorem setBlinkSpeed_spec (l : VirtualLED.t) (speed : Z) :
  (0 < speed ->
   let l' := VirtualLED.setBlinkSpeed l speed in
   VirtualLED.getBlinkSpeed l' = speed
   /\ VirtualLED.blinkTimer l' = QTimer.mk true speed
   /\ forall k : nat,
        VirtualLED.blinkTimer (blinkTicks k l') = QTimer.mk true speed
        /\ VirtualLED.blinkOn (blinkTicks (S k) l')
           = negb (VirtualLED.blinkOn (blinkTicks k l')))
  /\
  (let l' := VirtualLED.setBlinkSpeed l 0 in
   VirtualLED.getBlinkSpeed l' = 0
   /\ QTimer.isActive (VirtualLED.blinkTimer l') = false
   /\ VirtualLED.blinkOn l' = true
   /\ forall k : nat, blinkTicks k l' = l').
Proof.
  split.
  - intros Hpos l'.
    assert (Hgt : (speed >? 0) = true) by (apply Z.gtb_lt; lia).
    assert (Htm : VirtualLED.blinkTimer l' = QTimer.mk true speed).
    { unfold l', VirtualLED.setBlinkSpeed. simpl. rewrite Hgt. reflexivity. }
    assert (Hsp : VirtualLED.getBlinkSpeed l' = speed).
    { unfold l', VirtualLED.setBlinkSpeed. simpl. rewrite Hgt. reflexivity. }
    split; [exact Hsp | split; [exact Htm |]].
    intros k.
    assert (Hact : QTimer.isActive (VirtualLED.blinkTimer l') = true)
      by (rewrite Htm; reflexivity).
    destruct (blinkTicks_running k l' Hact) as [Ht Hb].
    destruct (blinkTicks_running (S k) l' Hact) as [_ Hb'].
    split; [congruence |].
    rewrite Hb', Hb, Nat.even_succ, <- Nat.negb_even.
    destruct (Nat.even k); simpl; [reflexivity | symmetry; apply negb_involutive].
  - simpl. repeat split. intros k. apply blinkTicks_stopped. reflexivity.
Qed.

Lemma setBlinkSpeed_spec_witness :
  VirtualLED.getBlinkSpeed (VirtualLED.setBlinkSpeed (VirtualLED.new 1) 250) = 250
  /\ VirtualLED.blinkTimer (VirtualLED.setBlinkSpeed (VirtualLED.new 1) 250)
     = QTimer.mk true 250.
Proof.
  destruct (setBlinkSpeed_spec (VirtualLED.new 1) 250) as [H _].
  destruct H as [H1 [H2 _]].
  - reflexivity.
  - split; [exact H1 | exact H2].
Defined.

(** ** The auto-off timer *)

Lemma wrap32_small (z : Z) : - 2 ^ 31 <= z < 2 ^ 31 -> wrap32 z = z.
Proof.
  intros H. unfold wrap32. rewrite Z.mod_small; lia.
Qed.

Lemma wrap32_succ (z : Z) : wrap32 (wrap32 z + 1) = wrap32 (z + 1).
Proof.
  unfold wrap32.
  replace ((z + 2 ^ 31) mod 2 ^ 32 - 2 ^ 31 + 1 + 2 ^ 31)
    with ((z + 2 ^ 31) mod 2 ^ 32 + 1) by lia.
  replace (z + 1 + 2 ^ 31) with ((z + 2 ^ 31) + 1) by lia.
  rewrite Z.add_mod_idemp_l by lia. reflexivity.
Qed.








(** ** Off and on again *)

Lemma blinkTimer_stays_stopped (l : VirtualLED.t) (o : VirtualLED.op) :
  VirtualLED.isSetBlinkSpeed o = false ->
  QTimer.isActive (VirtualLED.blinkTimer l) = false ->
  QTimer.isActive (VirtualLED.blinkTimer (VirtualLED.step l o)) = false.
Proof.
  intros Ho Hst.
  destruct o as [[c | i | | | s | s |] | [b | | | c | i | i]];
    simpl in Ho; try discriminate; simpl;
    unfold VirtualLED.mousePressEvent, VirtualLED.blinkTimeout,
           VirtualLED.offTimeout, VirtualLED.contextChangeColor,
           VirtualLED.contextSetDuration, VirtualLED.setDuration,
           VirtualLED.turnOn, VirtualLED.turnOff;
    repeat match goal with
           | |- context [if ?b then _ else _] => destruct b eqn:?
           | |- context [match ?i with Some _ => _ | None => _ end] =>
               destruct i
           end; simpl; try assumption; try reflexivity; congruence.
Qed.

Lemma blinkTimer_stays_stopped_run (os : list VirtualLED.op) :
  forall l,
    forallb (fun o => negb (VirtualLED.isSetBlinkSpeed o)) os = true ->
    QTimer.isActive (VirtualLED.blinkTimer l) = false ->
    QTimer.isActive (VirtualLED.blinkTimer (VirtualLED.run l os)) = false.
Proof.
  unfold VirtualLED.run.
  induction os as [| o os IH]; intros l Hos Hst; simpl in *; [exact Hst |].
  apply andb_true_iff in Hos. destruct Hos as [Ho Hos].
  apply IH; [exact Hos |].
  apply blinkTimer_stays_stopped; [| exact Hst].
  now apply negb_true_iff.
Qed.

(** C9, as stated, fails: an LED that is off while its blink timer runs
    ([setBlinkSpeed] was called on it while off) is not changed by
    [turnOff()], and [turnOn()] then brings it back with the blink timer
    still running. *)
Lemma turnOn_after_turnOff_blinks :
  0 < VirtualLED.getBlinkSpeed ledOffBlinking
  /\ VirtualLED.turnOff ledOffBlinking = ledOffBlinking
  /\ VirtualLED.isOn (VirtualLED.turnOn (VirtualLED.turnOff ledOffBlinking)) = true
  /\ QTimer.isActive
       (VirtualLED.blinkTimer
          (VirtualLED.turnOn (VirtualLED.turnOff ledOffBlinking))) = true
  /\ onSteady (VirtualLED.turnOn (VirtualLED.turnOff ledOffBlinking)) = false.
Proof. repeat split. Qed.

(** C9, amended.  For every LED with a positive blink speed, [turnOff()]
    leaves [blinkSpeed] unchanged and a subsequent [turnOn()] brings the
    LED back on with the same [blinkSpeed] and the phase visible, without
    starting the blink timer.  If the LED was on ([state] flag set), or its
    blink timer was not running, it comes back steady: the blink timer is
    stopped and stays stopped under every sequence of operations that does
    not call [setBlinkSpeed], and [setBlinkSpeed] with a positive speed
    starts it again.  If the LED was off ([state] flag clear) while its
    blink timer was running, [turnOff()] changes nothing and [turnOn()]
    brings the LED back with the blink timer still running. *)
Theorem turnOff_turnOn_steady (l : VirtualLED.t) :
  0 < VirtualLED.getBlinkSpeed l ->
  VirtualLED.getBlinkSpeed (VirtualLED.turnOff l) = VirtualLED.getBlinkSpeed l
  /\
  let l' := VirtualLED.turnOn (VirtualLED.turnOff l) in
  VirtualLED.getBlinkSpeed l' = VirtualLED.getBlinkSpeed l
  /\ VirtualLED.isOn l' = true
  /\ VirtualLED.blinkOn l' = true
  /\ QTimer.isActive (VirtualLED.blinkTimer l')
     = negb (VirtualLED.state l) && QTimer.isActive (VirtualLED.blinkTimer l)
  /\ (VirtualLED.state l = true
      \/ QTimer.isActive (VirtualLED.blinkTimer l) = false ->
      QTimer.isActive (VirtualLED.blinkTimer l') = false
      /\ (forall os,
            forallb (fun o => negb (VirtualLED.isSetBlinkSpeed o)) os = true ->
            QTimer.isActive (VirtualLED.blinkTimer (VirtualLED.run l' os)) = false)
      /\ (forall s, 0 < s ->
            QTimer.isActive
              (VirtualLED.blinkTimer (VirtualLED.setBlinkSpeed l' s)) = true))
  /\ (VirtualLED.state l = false ->
      QTimer.isActive (VirtualLED.blinkTimer l) = true ->
      VirtualLED.turnOff l = l
      /\ QTimer.isActive (VirtualLED.blinkTimer l') = true).
Proof.
  intros _.
  assert (Hsp : VirtualLED.getBlinkSpeed (VirtualLED.turnOff l)
                = VirtualLED.getBlinkSpeed l).
  { unfold VirtualLED.turnOff. destruct (VirtualLED.state l); reflexivity. }
  split; [exact Hsp |]. intros l'.
  assert (Hoff : VirtualLED.state (VirtualLED.turnOff l) = false).
  { unfold VirtualLED.turnOff.
    destruct (VirtualLED.state l) eqn:E; [reflexivity | exact E]. }
  assert (Hshape : l' = VirtualLED.set_offTimer
                          (QTimer.stop (VirtualLED.offTimer (VirtualLED.turnOff l)))
                          (VirtualLED.setColor
                             (VirtualLED.set_blinkOn true
                                (VirtualLED.set_state true (VirtualLED.turnOff l)))
                             QColor.white)).
  { unfold l', VirtualLED.turnOn. rewrite Hoff. reflexivity. }
  assert (Htm : QTimer.isActive (VirtualLED.blinkTimer l')
                = negb (VirtualLED.state l)
                  && QTimer.isActive (VirtualLED.blinkTimer l)).
  { rewrite Hshape. unfold VirtualLED.turnOff.
    destruct (VirtualLED.state l); reflexivity. }
  split; [rewrite Hshape; simpl; exact Hsp |].
  split; [rewrite Hshape; reflexivity |].
  split; [rewrite Hshape; reflexivity |].
  split; [exact Htm |]. split.
  - intros Hcase.
    assert (Hst : QTimer.isActive (VirtualLED.blinkTimer l') = false).
    { rewrite Htm. destruct Hcase as [-> | ->]; [reflexivity |].
      apply andb_false_r. }
    split; [exact Hst |]. split.
    + intros os Hos. apply blinkTimer_stays_stopped_run; assumption.
    + intros s Hs. unfold VirtualLED.setBlinkSpeed. simpl.
      assert (Hgt : (s >? 0) = true) by (apply Z.gtb_lt; lia).
      rewrite Hgt. reflexivity.
  - intros Hst Hrun. split.
    + unfold VirtualLED.turnOff. rewrite Hst. reflexivity.
    + rewrite Htm, Hst, Hrun. reflexivity.
Qed.

Lemma turnOff_turnOn_steady_witness :
  VirtualLED.getBlinkSpeed (VirtualLED.turnOff ledBlinkingTimed) = 500
  /\ onSteady (VirtualLED.turnOn (VirtualLED.turnOff ledBlinkingTimed)) = true
  /\ QTimer.isActive
       (VirtualLED.blinkTimer
          (VirtualLED.turnOn (VirtualLED.turnOff ledOffBlinking))) = true.
Proof.
  split; [| split].
  - destruct (turnOff_turnOn_steady ledBlinkingTimed) as [H1 _];
      [reflexivity | exact H1].
  - destruct (turnOff_turnOn_steady ledBlinkingTimed)
      as [_ [_ [H3 [H4 [_ [H6 _]]]]]]; [reflexivity |].
    destruct H6 as [H6 _]; [left; reflexivity |].
    unfold onSteady. rewrite H3, H4, H6. reflexivity.
  - destruct (turnOff_turnOn_steady ledOffBlinking)
      as [_ [_ [_ [_ [_ [_ H7]]]]]]; [reflexivity |].
    destruct H7 as [_ H7]; [reflexivity | reflexivity | exact H7].
Defined.

(** * Properties of the collection *)

(** ** Ids *)

Lemma wrap32_1 : wrap32 1 = 1.
Proof. reflexivity. Qed.

Lemma reassignFrom_spec (l : list VirtualLED.t) :
  forall z : Z,
    map VirtualLED.getId (fst (UserInterface.reassignFrom (wrap32 z) l))
    = map (fun k => wrap32 (Z.of_nat k + z)) (seq 0 (length l))
    /\ snd (UserInterface.reassignFrom (wrap32 z) l)
       = wrap32 (Z.of_nat (length l) + z)
    /\ map UserInterface.body (fst (UserInterface.reassignFrom (wrap32 z) l))
       = map UserInterface.body l.
Proof.
  induction l as [| led l IH]; intros z.
  - repeat split.
  - cbn [UserInterface.reassignFrom]. rewrite wrap32_succ.
    specialize (IH (z + 1)).
    destruct (UserInterface.reassignFrom (wrap32 (z + 1)) l) as [r' id'].
    cbn [fst snd map length seq] in *.
    destruct IH as [Hids [Hnext Hbody]].
    split; [| split].
    + rewrite Hids, <- seq_shift, map_map.
      apply f_equal2; [reflexivity |].
      apply map_ext. intros k. apply (f_equal wrap32). lia.
    + rewrite Hnext. apply (f_equal wrap32). lia.
    + rewrite Hbody. reflexivity.
Qed.

Lemma upto_wrap (n : nat) :
  Z.of_nat n <= INT_MAX ->
  map (fun k => wrap32 (Z.of_nat k + 1)) (seq 0 n) = UserInterface.upto n.
Proof.
  intros Hn. unfold UserInterface.upto.
  rewrite <- seq_shift, map_map.
  apply map_ext_in. intros k Hk. apply in_seq in Hk.
  rewrite wrap32_small; unfold INT_MAX in Hn; lia.
Qed.


Lemma idsWrapped_map (f : VirtualLED.t -> VirtualLED.t) (ui : UserInterface.t) :
  (forall l, VirtualLED.getId (f l) = VirtualLED.getId l) ->
  idsWrapped ui ->
  idsWrapped (UserInterface.mk (map f (UserInterface.leds ui))
                               (UserInterface.nextLedId ui)).
Proof.
  intros Hf [Hids Hnext]. unfold idsWrapped, UserInterface.ids in *. simpl.
  rewrite length_map, map_map.
  rewrite (map_ext _ VirtualLED.getId) by exact Hf.
  split; assumption.
Qed.

Lemma updateAt_ids (i : nat) (f : VirtualLED.t -> VirtualLED.t) :
  (forall l, VirtualLED.getId (f l) = VirtualLED.getId l) ->
  forall l,
    map VirtualLED.getId (UserInterface.updateAt i f l) = map VirtualLED.getId l
    /\ length (UserInterface.updateAt i f l) = length l.
Proof.
  intros Hf. induction i as [| i IH]; intros [| x r]; simpl; auto.
  - rewrite Hf. auto.
  - destruct (IH r) as [H1 H2]. rewrite H1, H2. auto.
Qed.

Lemma idsWrapped_updateAt (i : nat) (f : VirtualLED.t -> VirtualLED.t)
    (ui : UserInterface.t) :
  (forall l, VirtualLED.getId (f l) = VirtualLED.getId l) ->
  idsWrapped ui ->
  idsWrapped (UserInterface.mk (UserInterface.updateAt i f (UserInterface.leds ui))
                               (UserInterface.nextLedId ui)).
Proof.
  intros Hf [Hids Hnext]. unfold idsWrapped, UserInterface.ids in *. simpl.
  destruct (updateAt_ids i f Hf (UserInterface.leds ui)) as [H1 H2].
  rewrite H1, H2. split; assumption.
Qed.

Lemma getId_handle (l : VirtualLED.t) (e : VirtualLED.event) :
  VirtualLED.getId (VirtualLED.handle l e) = VirtualLED.getId l.
Proof.
  destruct e as [b | | | c | i | i]; simpl;
    unfold VirtualLED.mousePressEvent, VirtualLED.blinkTimeout,
           VirtualLED.offTimeout, VirtualLED.contextChangeColor,
           VirtualLED.contextSetBlinkSpeed, VirtualLED.contextSetDuration,
           VirtualLED.setBlinkSpeed, VirtualLED.setDuration,
           VirtualLED.turnOn, VirtualLED.turnOff;
    repeat match goal with
           | |- context [if ?b then _ else _] => destruct b eqn:?
           | |- context [match ?i with Some _ => _ | None => _ end] =>
               destruct i
           end; reflexivity.
Qed.

Lemma getId_turnOff (l : VirtualLED.t) :
  VirtualLED.getId (VirtualLED.turnOff l) = VirtualLED.getId l.
Proof. unfold VirtualLED.turnOff. destruct (VirtualLED.state l); reflexivity. Qed.

Lemma getId_setBlinkSpeed (l : VirtualLED.t) (s : Z) :
  VirtualLED.getId (VirtualLED.setBlinkSpeed l s) = VirtualLED.getId l.
Proof. unfold VirtualLED.setBlinkSpeed. simpl. destruct (s >? 0); reflexivity. Qed.

Lemma getId_setDuration (l : VirtualLED.t) (s : Z) :
  VirtualLED.getId (VirtualLED.setDuration l s) = VirtualLED.getId l.
Proof. unfold VirtualLED.setDuration. destruct (s >? 0); reflexivity. Qed.

Lemma idsWrapped_reassign (ui : UserInterface.t) :
  idsWrapped (UserInterface.reassignLEDIds ui).
Proof.
  unfold idsWrapped, UserInterface.reassignLEDIds, UserInterface.ids.
  pose proof (reassignFrom_spec (UserInterface.leds ui) 1) as H.
  rewrite wrap32_1 in H.
  destruct (UserInterface.reassignFrom 1 (UserInterface.leds ui)) as [l id].
  cbn [fst snd UserInterface.leds UserInterface.nextLedId] in *.
  destruct H as [Hids [Hnext Hbody]].
  assert (Hlen : length l = length (UserInterface.leds ui)).
  { rewrite <- (length_map UserInterface.body l), Hbody. apply length_map. }
  rewrite Hlen. split; assumption.
Qed.

Lemma idsWrapped_removeLED (ui : UserInterface.t) (id : Z) :
  idsWrapped ui -> idsWrapped (UserInterface.removeLED ui id).
Proof.
  intros H. unfold UserInterface.removeLED.
  destruct (UserInterface.findLEDById (UserInterface.leds ui) id);
    [apply idsWrapped_reassign | exact H].
Qed.

Lemma idsWrapped_changeLEDColor (ui : UserInterface.t) (id : Z) (c : QColor.t) :
  idsWrapped ui -> idsWrapped (UserInterface.changeLEDColor ui id c).
Proof.
  intros H. unfold UserInterface.changeLEDColor.
  destruct (UserInterface.findLEDById (UserInterface.leds ui) id); [| exact H].
  apply idsWrapped_updateAt; [reflexivity | exact H].
Qed.

Lemma idsWrapped_addNewLED (ui : UserInterface.t) :
  idsWrapped ui -> idsWrapped (UserInterface.addNewLED ui).
Proof.
  intros [Hids Hnext]. unfold idsWrapped, UserInterface.addNewLED,
    UserInterface.ids in *. simpl.
  rewrite length_app, map_app, Nat.add_1_r, seq_S, map_app. simpl.
  split.
  - rewrite Hids, Hnext. reflexivity.
  - rewrite Hnext, wrap32_succ. apply (f_equal wrap32). lia.
Qed.

Lemma idsWrapped_step (ui : UserInterface.t) (o : UserInterface.op) :
  idsWrapped ui -> idsWrapped (UserInterface.step ui o).
Proof.
  intros H.
  destruct o as [| | | | id | id c | c | input | input | i e | i]; simpl.
  - apply idsWrapped_addNewLED, H.
  - unfold UserInterface.turnAllLEDsOn.
    destruct (UserInterface.leds ui) as [| x0 r0] eqn:E; [exact H |]. rewrite <- E.
    destruct (forallb VirtualLED.isOn (UserInterface.leds ui)); [exact H |].
    simpl. apply idsWrapped_map; [| exact H].
    intros l. destruct (VirtualLED.isOn l); reflexivity.
  - unfold UserInterface.turnAllLEDsOff.
    destruct (UserInterface.leds ui) as [| x0 r0] eqn:E; [exact H |]. rewrite <- E.
    assert (H' : idsWrapped
              (UserInterface.mk
                 (map (fun led => if VirtualLED.isOn led
                                  then VirtualLED.turnOff led else led)
                      (UserInterface.leds ui))
                 (UserInterface.nextLedId ui))).
    { apply idsWrapped_map; [| exact H].
      intros l. destruct (VirtualLED.isOn l); [apply getId_turnOff | reflexivity]. }
    destruct (negb (existsb VirtualLED.isOn (UserInterface.leds ui))); exact H'.
  - unfold UserInterface.removeAllLEDs.
    destruct (UserInterface.leds ui); [exact H |]. split; reflexivity.
  - apply idsWrapped_removeLED, H.
  - apply idsWrapped_changeLEDColor, H.
  - unfold UserInterface.changeAllLEDsColor.
    destruct (UserInterface.leds ui) as [| x0 r0] eqn:E; [exact H |]. rewrite <- E.
    destruct (negb (existsb VirtualLED.isOn (UserInterface.leds ui))); [exact H |].
    destruct (QColor.isValid c); [| exact H].
    simpl. apply idsWrapped_map; [| exact H].
    intros l. destruct (VirtualLED.isOn l); reflexivity.
  - unfold UserInterface.setAllLEDsBlinkSpeed.
    destruct (UserInterface.leds ui) as [| x0 r0] eqn:E; [exact H |]. rewrite <- E.
    destruct (negb _); [exact H |].
    destruct input as [speed |]; [| exact H].
    simpl. apply idsWrapped_map; [| exact H].
    intros l. destruct (VirtualLED.isOn l); [apply getId_setBlinkSpeed | reflexivity].
  - unfold UserInterface.setDurationForOnLEDs.
    destruct (UserInterface.leds ui) as [| x0 r0] eqn:E; [exact H |]. rewrite <- E.
    destruct (negb _); [exact H |].
    destruct input as [duration |]; [| exact H].
    simpl. apply idsWrapped_map; [| exact H].
    intros l. destruct (VirtualLED.isOn l); [apply getId_setDuration | reflexivity].
  - unfold UserInterface.ledEvent.
    destruct (nth_error (UserInterface.leds ui) i) as [l |]; [| exact H].
    assert (H' : idsWrapped
              (UserInterface.mk
                 (UserInterface.updateAt i (fun l => VirtualLED.handle l e)
                    (UserInterface.leds ui))
                 (UserInterface.nextLedId ui))).
    { apply idsWrapped_updateAt; [| exact H]. intros x. apply getId_handle. }
    destruct e; try exact H'.
    destruct (VirtualLED.state l && QColor.isValid selectedColor); [| exact H'].
    apply idsWrapped_changeLEDColor, H'.
  - unfold UserInterface.contextRemove.
    destruct (nth_error (UserInterface.leds ui) i); [| exact H].
    apply idsWrapped_removeLED, H.
Qed.

Lemma idsWrapped_run (os : list UserInterface.op) :
  forall ui, idsWrapped ui -> idsWrapped (UserInterface.run ui os).
Proof.
  unfold UserInterface.run.
  induction os as [| o os IH]; intros ui H; simpl; auto using idsWrapped_step.
Qed.

Lemma upto_members (n : nat) (z : Z) :
  In z (UserInterface.upto n) <-> 1 <= z <= Z.of_nat n.
Proof.
  unfold UserInterface.upto. rewrite in_map_iff. split.
  - intros [k [<- Hk]]. apply in_seq in Hk. lia.
  - intros Hz. exists (Z.to_nat z). split; [lia |]. apply in_seq. lia.
Qed.

Lemma upto_NoDup (n : nat) : NoDup (UserInterface.upto n).
Proof.
  unfold UserInterface.upto.
  apply Injective_map_NoDup; [| apply seq_NoDup].
  intros a b Hab. lia.
Qed.

(** C2.  In every state the window reaches from its constructor by any
    finite sequence of its slots and of events on its LEDs, as long as the
    collection holds fewer than [INT_MAX] LEDs (so that the [int] counter
    has not overflowed), the ids of the LEDs are [1, 2, ..., n] in display
    order, hence without gaps or duplicates, and [nextLedId] is [n + 1],
    where [n] is the size of the collection. *)
Theorem ids_invariant (os : list UserInterface.op) :
  let ui := UserInterface.run UserInterface.new os in
  let n := length (UserInterface.leds ui) in
  Z.of_nat n < INT_MAX ->
  UserInterface.ids ui = UserInterface.upto n
  /\ NoDup (UserInterface.ids ui)
  /\ (forall z, In z (UserInterface.ids ui) <-> 1 <= z <= Z.of_nat n)
  /\ UserInterface.nextLedId ui = Z.of_nat n + 1.
Proof.
  intros ui n Hn.
  assert (H : idsWrapped ui).
  { apply idsWrapped_run. split; reflexivity. }
  destruct H as [Hids Hnext]. fold n in Hids, Hnext.
  assert (Hupto : UserInterface.ids ui = UserInterface.upto n).
  { rewrite Hids. apply upto_wrap. lia. }
  split; [exact Hupto |]. rewrite Hupto.
  split; [apply upto_NoDup |]. split; [apply upto_members |].
  rewrite Hnext. apply wrap32_small. unfold INT_MAX in Hn. lia.
Qed.

Lemma ids_invariant_witness :
  UserInterface.ids
    (UserInterface.run UserInterface.new
       [UserInterface.AddNewLED; UserInterface.AddNewLED;
        UserInterface.AddNewLED; UserInterface.RemoveLED 2])
  = UserInterface.upto 2
  /\ UserInterface.nextLedId
       (UserInterface.run UserInterface.new
          [UserInterface.AddNewLED; UserInterface.AddNewLED;
           UserInterface.AddNewLED; UserInterface.RemoveLED 2])
     = 3.
Proof.
  destruct (ids_invariant
              [UserInterface.AddNewLED; UserInterface.AddNewLED;
               UserInterface.AddNewLED; UserInterface.RemoveLED 2])
    as [H1 [_ [_ H4]]].
  - reflexivity.
  - split; [exact H1 | exact H4].
Defined.

(** ** Removal *)

Lemma findLEDById_first (pre : list VirtualLED.t) (x : VirtualLED.t)
    (post : list VirtualLED.t) (id : Z) :
  VirtualLED.getId x = id ->
  (forall y, In y pre -> VirtualLED.getId y <> id) ->
  UserInterface.findLEDById (pre ++ x :: post) id = Some (length pre).
Proof.
  intros Hx. induction pre as [| p pre IH]; intros Hpre; simpl.
  - rewrite Hx, Z.eqb_refl. reflexivity.
  - destruct (VirtualLED.getId p =? id) eqn:E.
    + apply Z.eqb_eq in E. exfalso. apply (Hpre p); [now left | exact E].
    + rewrite IH; [reflexivity |]. intros y Hy. apply Hpre. now right.
Qed.

Lemma findLEDById_absent (l : list VirtualLED.t) (id : Z) :
  (forall y, In y l -> VirtualLED.getId y <> id) ->
  UserInterface.findLEDById l id = None.
Proof.
  induction l as [| p l IH]; intros Hl; simpl; [reflexivity |].
  destruct (VirtualLED.getId p =? id) eqn:E.
  - apply Z.eqb_eq in E. exfalso. apply (Hl p); [now left | exact E].
  - rewrite IH; [reflexivity |]. intros y Hy. apply Hl. now right.
Qed.

Lemma first_occurrence (l : list VirtualLED.t) (id : Z) :
  (exists y, In y l /\ VirtualLED.getId y = id) ->
  exists pre x post,
    l = pre ++ x :: post
    /\ VirtualLED.getId x = id
    /\ (forall y, In y pre -> VirtualLED.getId y <> id).
Proof.
  induction l as [| p l IH]; intros [y [Hy Hid]]; [destruct Hy |].
  destruct (Z.eq_dec (VirtualLED.getId p) id) as [Hp | Hp].
  - exists [], p, l. repeat split; [exact Hp | intros z []].
  - destruct IH as [pre [x [post [Hl [Hx Hpre]]]]].
    { destruct Hy as [-> | Hy]; [contradiction | exists y; auto]. }
    exists (p :: pre), x, post. rewrite Hl. repeat split; [exact Hx |].
    intros z [<- | Hz]; [exact Hp | apply Hpre, Hz].
Qed.




(** ** Bulk commands *)

Lemma Forall2_map_self {A : Type} (R : A -> A -> Prop) (f : A -> A) (l : list A) :
  (forall x, In x l -> R x (f x)) -> Forall2 R l (map f l).
Proof.
  induction l as [| a l IH]; intros H; simpl; constructor.
  - apply H. now left.
  - apply IH. intros x Hx. apply H. now right.
Qed.

Lemma forallb_false_of_member {A : Type} (p : A -> bool) (l : list A) :
  (exists x, In x l /\ p x = false) -> forallb p l = false.
Proof.
  intros [x [Hin Hx]]. destruct (forallb p l) eqn:E; [| reflexivity].
  rewrite forallb_forall in E. rewrite (E x Hin) in Hx. discriminate.
Qed.

Lemma existsb_false_of_none {A : Type} (p : A -> bool) (l : list A) :
  (forall x, In x l -> p x = false) -> existsb p l = false.
Proof.
  intros H. destruct (existsb p l) eqn:E; [| reflexivity].
  apply existsb_exists in E. destruct E as [x [Hin Hx]].
  rewrite (H x Hin) in Hx. discriminate.
Qed.

Lemma turnedOn_one (l : VirtualLED.t) :
  turnedOn l
    (VirtualLED.stopOffTimer
       (if negb (VirtualLED.isOn l)
        then VirtualLED.setColor l QColor.white else l)).
Proof.
  unfold turnedOn, VirtualLED.isOn.
  destruct (QColor.neqb (VirtualLED.currentColor l) QColor.transparent) eqn:E;
    simpl; repeat split; intros; congruence.
Qed.

(** C3.  [turnAllLEDsOn] on an empty collection opens the "No LEDs
    available" warning and changes nothing; on a non-empty collection
    whose LEDs are all on it opens the "already turned on" warning and
    changes nothing; on a collection with at least one LED off it opens no
    warning and leaves every LED on with its auto-off timer stopped, the
    LEDs that were off now white and the others with the colour they
    had. *)
Theorem turnAllLEDsOn_spec (ui : UserInterface.t) :
  (UserInterface.leds ui = [] ->
   UserInterface.turnAllLEDsOn ui
   = (ui, [UserInterface.Warning "Operation Failed"
                                 "<b>No LEDs available to turn on.</b>"]))
  /\
  (UserInterface.leds ui <> [] ->
   (forall l, In l (UserInterface.leds ui) -> VirtualLED.isOn l = true) ->
   UserInterface.turnAllLEDsOn ui
   = (ui, [UserInterface.Warning "Operation Failed"
                                 "<b>All LEDs are already turned on.</b>"]))
  /\
  ((exists l, In l (UserInterface.leds ui) /\ VirtualLED.isOn l = false) ->
   let r := UserInterface.turnAllLEDsOn ui in
   snd r = []
   /\ UserInterface.nextLedId (fst r) = UserInterface.nextLedId ui
   /\ Forall2 turnedOn (UserInterface.leds ui) (UserInterface.leds (fst r))
   /\ Forall (fun l => VirtualLED.isOn l = true
                       /\ QTimer.isActive (VirtualLED.offTimer l) = false)
             (UserInterface.leds (fst r))).
Proof.
  split; [| split].
  - unfold UserInterface.turnAllLEDsOn. intros ->. reflexivity.
  - unfold UserInterface.turnAllLEDsOn. intros Hne Hall.
    destruct (UserInterface.leds ui) as [| x0 r0] eqn:E; [contradiction |].
    rewrite <- E in *.
    assert (Hf : forallb VirtualLED.isOn (UserInterface.leds ui) = true)
      by (apply forallb_forall; exact Hall).
    rewrite Hf. reflexivity.
  - intros Hex r.
    assert (Hf : forallb VirtualLED.isOn (UserInterface.leds ui) = false)
      by (apply forallb_false_of_member; exact Hex).
    assert (Hr : r = (UserInterface.mk
                        (map (fun led =>
                                VirtualLED.stopOffTimer
                                  (if negb (VirtualLED.isOn led)
                                   then VirtualLED.setColor led QColor.white
                                   else led))
                             (UserInterface.leds ui))
                        (UserInterface.nextLedId ui), [])).
    { unfold r, UserInterface.turnAllLEDsOn.
      destruct (UserInterface.leds ui) as [| x0 r0] eqn:E.
      - destruct Hex as [l [[] _]].
      - rewrite <- E in *. rewrite Hf. reflexivity. }
    rewrite Hr. cbn [fst snd UserInterface.leds UserInterface.nextLedId].
    split; [reflexivity |]. split; [reflexivity |]. split.
    + apply Forall2_map_self. intros x _. apply turnedOn_one.
    + apply Forall_map, Forall_forall. intros x _.
      destruct (turnedOn_one x) as [H1 [H2 _]]. split; assumption.
Qed.

Lemma turnAllLEDsOn_spec_witness :
  snd (UserInterface.turnAllLEDsOn UserInterface.new)
  = [UserInterface.Warning "Operation Failed" "<b>No LEDs available to turn on.</b>"]
  /\ snd (UserInterface.turnAllLEDsOn uiAllOn)
     = [UserInterface.Warning "Operation Failed"
                              "<b>All LEDs are already turned on.</b>"]
  /\ Forall (fun l => VirtualLED.isOn l = true
                      /\ QTimer.isActive (VirtualLED.offTimer l) = false)
            (UserInterface.leds (fst (UserInterface.turnAllLEDsOn uiFirstOnTimed))).
Proof.
  split; [| split].
  - destruct (turnAllLEDsOn_spec UserInterface.new) as [H _].
    rewrite H; reflexivity.
  - destruct (turnAllLEDsOn_spec uiAllOn) as [_ [H _]].
    rewrite H; [reflexivity | discriminate |].
    intros l [<- | [<- | [<- | []]]]; reflexivity.
  - destruct (turnAllLEDsOn_spec uiFirstOnTimed) as [_ [_ H]].
    apply H. exists (VirtualLED.new 2). split; [right; left |]; reflexivity.
Defined.

Lemma recoloured_one (color : QColor.t) (l : VirtualLED.t) :
  recoloured color l
    (if VirtualLED.isOn l then VirtualLED.setColor l color else l).
Proof.
  unfold recoloured. destruct (VirtualLED.isOn l); split; intros H;
    try discriminate; auto.
Qed.

(** C6.  [changeAllLEDsColor] on an empty collection opens a warning and
    changes nothing; on a non-empty collection with no LED on it opens a
    warning and changes nothing (the picker is not consulted); otherwise,
    if the picker returns a valid colour, every LED that is on gets that
    colour and every LED that is off is unchanged, and if the picker
    returns an invalid colour (cancelled), nothing changes and no warning
    is opened. *)
Theorem changeAllLEDsColor_spec (ui : UserInterface.t) (color : QColor.t) :
  (UserInterface.leds ui = [] ->
   UserInterface.changeAllLEDsColor ui color
   = (ui, [UserInterface.Warning "Operation Failed"
                                 "<b>No LEDs available to change color.</b>"]))
  /\
  (UserInterface.leds ui <> [] ->
   (forall l, In l (UserInterface.leds ui) -> VirtualLED.isOn l = false) ->
   UserInterface.changeAllLEDsColor ui color
   = (ui, [UserInterface.Warning
             "Operation Failed"
             "<b>At least one LED must be on to change colors.</b>"]))
  /\
  ((exists l, In l (UserInterface.leds ui) /\ VirtualLED.isOn l = true) ->
   QColor.isValid color = true ->
   let r := UserInterface.changeAllLEDsColor ui color in
   snd r = []
   /\ UserInterface.nextLedId (fst r) = UserInterface.nextLedId ui
   /\ Forall2 (recoloured color)
              (UserInterface.leds ui) (UserInterface.leds (fst r)))
  /\
  ((exists l, In l (UserInterface.leds ui) /\ VirtualLED.isOn l = true) ->
   QColor.isValid color = false ->
   UserInterface.changeAllLEDsColor ui color = (ui, [])).
Proof.
  split; [| split; [| split]].
  - unfold UserInterface.changeAllLEDsColor. intros ->. reflexivity.
  - unfold UserInterface.changeAllLEDsColor. intros Hne Hnone.
    destruct (UserInterface.leds ui) as [| x0 r0] eqn:E; [contradiction |].
    rewrite <- E in *.
    rewrite (existsb_false_of_none _ _ Hnone). reflexivity.
  - intros [l [Hin Hon]] Hvalid r.
    assert (He : existsb VirtualLED.isOn (UserInterface.leds ui) = true)
      by (apply existsb_exists; exists l; auto).
    assert (Hr : r = (UserInterface.mk
                        (map (fun led =>
                                if VirtualLED.isOn led
                                then VirtualLED.setColor led color else led)
                             (UserInterface.leds ui))
                        (UserInterface.nextLedId ui), [])).
    { unfold r, UserInterface.changeAllLEDsColor.
      destruct (UserInterface.leds ui) as [| x0 r0] eqn:E; [destruct Hin |].
      rewrite <- E in *. rewrite He, Hvalid. reflexivity. }
    rewrite Hr. cbn [fst snd UserInterface.leds UserInterface.nextLedId].
    split; [reflexivity |]. split; [reflexivity |].
    apply Forall2_map_self. intros x _. apply recoloured_one.
  - intros [l [Hin Hon]] Hinvalid.
    assert (He : existsb VirtualLED.isOn (UserInterface.leds ui) = true)
      by (apply existsb_exists; exists l; auto).
    unfold UserInterface.changeAllLEDsColor.
    destruct (UserInterface.leds ui) as [| x0 r0] eqn:E; [destruct Hin |].
    rewrite <- E in *. rewrite He, Hinvalid. reflexivity.
Qed.

Lemma changeAllLEDsColor_spec_witness :
  Forall2 (recoloured red)
          (UserInterface.leds uiAllOn)
          (UserInterface.leds (fst (UserInterface.changeAllLEDsColor uiAllOn red)))
  /\ UserInterface.changeAllLEDsColor uiAllOn QColor.invalid = (uiAllOn, [])
  /\ snd (UserInterface.changeAllLEDsColor uiThree red)
     = [UserInterface.Warning
          "Operation Failed"
          "<b>At least one LED must be on to change colors.</b>"].
Proof.
  assert (Hon : exists l, In l (UserInterface.leds uiAllOn)
                          /\ VirtualLED.isOn l = true).
  { exists (VirtualLED.turnOn (VirtualLED.new 1)). split; [left |]; reflexivity. }
  split; [| split].
  - destruct (changeAllLEDsColor_spec uiAllOn red) as [_ [_ [H _]]].
    destruct (H Hon eq_refl) as [_ [_ HF]]. exact HF.
  - destruct (changeAllLEDsColor_spec uiAllOn QColor.invalid) as [_ [_ [_ H]]].
    apply H; [exact Hon | reflexivity].
  - destruct (changeAllLEDsColor_spec uiThree red) as [_ [H _]].
    rewrite H; [reflexivity | discriminate |].
    intros l [<- | [<- | [<- | []]]]; reflexivity.
Defined.

(** ** The scenarios of the specification, evaluated *)

Example scenario_add_three :
  UserInterface.ids uiThree = [1; 2; 3] /\ UserInterface.nextLedId uiThree = 4.
Proof. split; reflexivity. Qed.

Example scenario_remove_middle :
  UserInterface.ids (UserInterface.removeLED uiThree 2) = [1; 2]
  /\ UserInterface.nextLedId (UserInterface.removeLED uiThree 2) = 3
  /\ map UserInterface.body (UserInterface.leds (UserInterface.removeLED uiThree 2))
     = map UserInterface.body [VirtualLED.new 1; VirtualLED.new 3].
Proof. repeat split. Qed.

Example scenario_recolour_all :
  map VirtualLED.currentColor
      (UserInterface.leds (fst (UserInterface.changeAllLEDsColor uiAllOn red)))
  = [red; red; red]
  /\ map VirtualLED.currentColor
         (UserInterface.leds
            (fst (UserInterface.changeAllLEDsColor uiAllOn QColor.invalid)))
     = [QColor.white; QColor.white; QColor.white].
Proof. split; reflexivity. Qed.

Example scenario_turn_all_on_cancels_timer :
  map (fun l => QTimer.isActive (VirtualLED.offTimer l))
      (UserInterface.leds uiFirstOnTimed) = [true; false; false]
  /\ map onUntimed
         (UserInterface.leds (fst (UserInterface.turnAllLEDsOn uiFirstOnTimed)))
     = [true; true; true].
Proof. split; reflexivity. Qed.

Example scenario_duration_expires :
  VirtualLED.isOn ledOnTimed = true
  /\ VirtualLED.isOn (VirtualLED.offTimeout ledOnTimed) = false.
Proof. split; reflexivity. Qed.

(** * Further properties of one LED *)

(** X1.  On an LED whose flag agrees with its colour, a left click
    inverts the on/off status and keeps the flag in agreement; a click
    with any other button changes nothing. *)
Theorem mousePress_toggles (l : VirtualLED.t) :
  flagOk l ->
  VirtualLED.isOn (VirtualLED.mousePressEvent l true) = negb (VirtualLED.isOn l)
  /\ flagOk (VirtualLED.mousePressEvent l true)
  /\ VirtualLED.mousePressEvent l false = l.
Proof.
  intros H. split; [| split; [| reflexivity]].
  - unfold flagOk in H. unfold VirtualLED.mousePressEvent.
    destruct (VirtualLED.state l) eqn:E; rewrite <- H.
    + unfold VirtualLED.turnOff. rewrite E. reflexivity.
    + unfold VirtualLED.turnOn. rewrite E. reflexivity.
  - apply (flagOk_handle l (VirtualLED.MousePress true) H).
Qed.

Lemma mousePress_toggles_witness :
  VirtualLED.isOn (VirtualLED.mousePressEvent ledOnTimed true) = false
  /\ VirtualLED.isOn (VirtualLED.mousePressEvent ledOffTimed true) = true.
Proof.
  split.
  - destruct (mousePress_toggles ledOnTimed) as [H _]; [reflexivity | exact H].
  - destruct (mousePress_toggles ledOffTimed) as [H _]; [reflexivity | exact H].
Defined.

(** X2.  [turnOn] and [turnOff] are idempotent on every LED: a second
    call changes nothing. *)
Theorem turnOn_turnOff_idempotent (l : VirtualLED.t) :
  VirtualLED.turnOn (VirtualLED.turnOn l) = VirtualLED.turnOn l
  /\ VirtualLED.turnOff (VirtualLED.turnOff l) = VirtualLED.turnOff l.
Proof.
  split.
  - unfold VirtualLED.turnOn at 2 3.
    destruct (VirtualLED.state l) eqn:E; simpl.
    + unfold VirtualLED.turnOn. rewrite E. reflexivity.
    + reflexivity.
  - unfold VirtualLED.turnOff at 2 3.
    destruct (VirtualLED.state l) eqn:E; simpl.
    + reflexivity.
    + unfold VirtualLED.turnOff. rewrite E. reflexivity.
Qed.

(** X3.  Whatever the LED, [turnOff()] followed by [turnOn()] ends on
    with the default white colour and the auto-off timer stopped: the
    colour the LED had is not restored. *)
Theorem turnOff_turnOn_white (l : VirtualLED.t) :
  let l' := VirtualLED.turnOn (VirtualLED.turnOff l) in
  VirtualLED.currentColor l' = QColor.white
  /\ VirtualLED.isOn l' = true
  /\ VirtualLED.state l' = true
  /\ QTimer.isActive (VirtualLED.offTimer l') = false.
Proof.
  intros l'. unfold l', VirtualLED.turnOff.
  destruct (VirtualLED.state l) eqn:E.
  - repeat split.
  - unfold VirtualLED.turnOn. rewrite E. repeat split.
Qed.

(** X4.  Of two successive [setColor] calls only the second counts, and
    assigning to an LED, whose flag agrees with its colour, the colour it
    already has changes nothing. *)
Theorem setColor_last_wins (l : VirtualLED.t) (c1 c2 : QColor.t) :
  VirtualLED.setColor (VirtualLED.setColor l c1) c2 = VirtualLED.setColor l c2
  /\ (flagOk l -> VirtualLED.setColor l (VirtualLED.currentColor l) = l).
Proof.
  split; [reflexivity |].
  unfold flagOk, VirtualLED.isOn, VirtualLED.setColor,
    VirtualLED.set_state, VirtualLED.set_currentColor.
  destruct l as [col lid st bon bt bsp ot]. simpl. intros ->. reflexivity.
Qed.

Lemma setColor_last_wins_witness :
  VirtualLED.setColor ledOnTimed (VirtualLED.currentColor ledOnTimed) = ledOnTimed.
Proof.
  destruct (setColor_last_wins ledOnTimed red red) as [_ H].
  apply H. reflexivity.
Defined.

Lemma blinkTimeout_twice (l : VirtualLED.t) :
  VirtualLED.blinkTimeout (VirtualLED.blinkTimeout l) = l.
Proof.
  destruct l as [col lid st bon [bta bti] bsp ot].
  unfold VirtualLED.blinkTimeout. simpl.
  destruct bta; simpl; [rewrite negb_involutive |]; reflexivity.
Qed.

Lemma blinkTimeout_frame (l : VirtualLED.t) :
  VirtualLED.set_blinkOn (VirtualLED.blinkOn l) (VirtualLED.blinkTimeout l) = l.
Proof.
  destruct l as [col lid st bon [bta bti] bsp ot].
  unfold VirtualLED.blinkTimeout. simpl. destruct bta; reflexivity.
Qed.

(** X5.  Blinking moves an LED between exactly two states: after an even
    number of blink-timer expiries the LED is what it was, after an odd
    number it is what it was after the first; and an expiry changes
    nothing of the LED but the blink phase. *)
Theorem blinkTicks_two_states (k : nat) (l : VirtualLED.t) :
  blinkTicks k l = (if Nat.even k then l else VirtualLED.blinkTimeout l)
  /\ VirtualLED.set_blinkOn (VirtualLED.blinkOn l) (VirtualLED.blinkTimeout l) = l.
Proof.
  split; [| apply blinkTimeout_frame].
  unfold blinkTicks. induction k as [| k IH]; [reflexivity |].
  rewrite Nat.iter_succ, IH, Nat.even_succ, <- Nat.negb_even.
  destruct (Nat.even k); simpl; [reflexivity | apply blinkTimeout_twice].
Qed.

Lemma offTicks_stopped (k : nat) (l : VirtualLED.t) :
  QTimer.isActive (VirtualLED.offTimer l) = false -> offTicks k l = l.
Proof.
  intros H. unfold offTicks. induction k as [| k IH]; [reflexivity |].
  rewrite Nat.iter_succ, IH. unfold VirtualLED.offTimeout. rewrite H.
  reflexivity.
Qed.

(** X6.  [stopOffTimer] cancels a scheduled auto-off: after
    [setDuration(seconds)] followed by [stopOffTimer()], whatever
    [seconds] is, no expiry of the auto-off timer changes the LED, and
    the LED differs from the one before the two calls in its auto-off
    timer only. *)
Theorem stopOffTimer_cancels (l : VirtualLED.t) (seconds : Z) (k : nat) :
  let l' := VirtualLED.stopOffTimer (VirtualLED.setDuration l seconds) in
  offTicks k l' = l'
  /\ QTimer.isActive (VirtualLED.offTimer l') = false
  /\ VirtualLED.set_offTimer (VirtualLED.offTimer l) l' = l.
Proof.
  intros l'.
  assert (H : QTimer.isActive (VirtualLED.offTimer l') = false) by reflexivity.
  split; [apply offTicks_stopped, H | split; [exact H |]].
  unfold l', VirtualLED.setDuration.
  destruct l as [col lid st bon bt bsp ot].
  destruct (seconds >? 0); reflexivity.
Qed.

Lemma getId_invoke (l : VirtualLED.t) (c : VirtualLED.call) :
  VirtualLED.isSetId (VirtualLED.Call c) = false ->
  VirtualLED.getId (VirtualLED.invoke l c) = VirtualLED.getId l.
Proof.
  destruct c as [col | i | | | s | s |]; simpl; intros H; try discriminate;
    try reflexivity.
  - unfold VirtualLED.turnOn. destruct (negb (VirtualLED.state l)); reflexivity.
  - apply getId_turnOff.
  - apply getId_setBlinkSpeed.
  - apply getId_setDuration.
Qed.

Lemma blinkSpeed_step (l : VirtualLED.t) (o : VirtualLED.op) :
  VirtualLED.isSetBlinkSpeed o = false ->
  VirtualLED.getBlinkSpeed (VirtualLED.step l o) = VirtualLED.getBlinkSpeed l.
Proof.
  intros Ho.
  destruct o as [[c | i | | | s | s |] | [b | | | c | i | i]];
    simpl in Ho; try discriminate; simpl;
    unfold VirtualLED.mousePressEvent, VirtualLED.blinkTimeout,
           VirtualLED.offTimeout, VirtualLED.contextChangeColor,
           VirtualLED.contextSetDuration, VirtualLED.setDuration,
           VirtualLED.turnOn, VirtualLED.turnOff;
    repeat match goal with
           | |- context [if ?b then _ else _] => destruct b eqn:?
           | |- context [match ?i with Some _ => _ | None => _ end] =>
               destruct i
           end; reflexivity.
Qed.

(** X7.  An LED's id is changed by [setId] only and its blink speed by
    [setBlinkSpeed] only: every sequence of calls and events without
    [setId] keeps the id, and every sequence without [setBlinkSpeed]
    (direct or from the context menu) keeps the blink speed. *)
Theorem id_and_blinkSpeed_frame (l : VirtualLED.t) (os : list VirtualLED.op) :
  (forallb (fun o => negb (VirtualLED.isSetId o)) os = true ->
   VirtualLED.getId (VirtualLED.run l os) = VirtualLED.getId l)
  /\
  (forallb (fun o => negb (VirtualLED.isSetBlinkSpeed o)) os = true ->
   VirtualLED.getBlinkSpeed (VirtualLED.run l os) = VirtualLED.getBlinkSpeed l).
Proof.
  unfold VirtualLED.run. split; revert l;
    induction os as [| o os IH]; intros l H; simpl in *; try reflexivity;
    apply andb_true_iff in H; destruct H as [Ho Hos];
    apply negb_true_iff in Ho; rewrite (IH _ Hos).
  - destruct o as [c | e]; simpl; [apply getId_invoke, Ho | apply getId_handle].
  - apply blinkSpeed_step, Ho.
Qed.

Lemma id_and_blinkSpeed_frame_witness :
  VirtualLED.getId
    (VirtualLED.run (VirtualLED.new 4)
       [VirtualLED.Event (VirtualLED.MousePress true);
        VirtualLED.Call (VirtualLED.SetBlinkSpeed 200);
        VirtualLED.Event VirtualLED.OffTimeout]) = 4
  /\ VirtualLED.getBlinkSpeed
       (VirtualLED.run ledBlinkingTimed
          [VirtualLED.Call VirtualLED.TurnOff;
           VirtualLED.Call (VirtualLED.SetId 9);
           VirtualLED.Call VirtualLED.TurnOn]) = 500.
Proof.
  split.
  - destruct (id_and_blinkSpeed_frame (VirtualLED.new 4)
                [VirtualLED.Event (VirtualLED.MousePress true);
                 VirtualLED.Call (VirtualLED.SetBlinkSpeed 200);
                 VirtualLED.Event VirtualLED.OffTimeout]) as [H _].
    rewrite H; reflexivity.
  - destruct (id_and_blinkSpeed_frame ledBlinkingTimed
                [VirtualLED.Call VirtualLED.TurnOff;
                 VirtualLED.Call (VirtualLED.SetId 9);
                 VirtualLED.Call VirtualLED.TurnOn]) as [_ H].
    rewrite H; reflexivity.
Defined.

(** X8.  For every LED reached from the constructor by calls and events,
    the context menu offers "Remove" alone while the LED is off, and
    "Remove", "Change Color", "Set Blinking Speed", "Set Duration" while
    it is on. *)
Theorem contextMenu_follows_isOn (id : Z) (os : list VirtualLED.op) :
  let l := VirtualLED.run (VirtualLED.new id) os in
  VirtualLED.contextMenuActions l
  = if VirtualLED.isOn l
    then ["Remove"; "Change Color"; "Set Blinking Speed"; "Set Duration"]%string
    else ["Remove"%string].
Proof.
  intros l.
  assert (H : flagOk l) by (apply flagOk_run, flagOk_new).
  unfold VirtualLED.contextMenuActions. rewrite H.
  destruct (VirtualLED.isOn l); reflexivity.
Qed.

(** * Further properties of the collection *)

(** ** Helpers on lists of LEDs *)

Lemma ui_eta (ui : UserInterface.t) :
  UserInterface.mk (UserInterface.leds ui) (UserInterface.nextLedId ui) = ui.
Proof. destruct ui; reflexivity. Qed.

Lemma map_fixed {A : Type} (f : A -> A) (l : list A) :
  (forall x, In x l -> f x = x) -> map f l = l.
Proof.
  induction l as [| a l IH]; intros H; simpl; [reflexivity |].
  rewrite H by (now left). rewrite IH; [reflexivity |].
  intros x Hx. apply H. now right.
Qed.

Lemma updateAt_middle (pre : list VirtualLED.t) (x : VirtualLED.t)
    (post : list VirtualLED.t) (f : VirtualLED.t -> VirtualLED.t) :
  UserInterface.updateAt (length pre) f (pre ++ x :: post) = pre ++ f x :: post.
Proof.
  induction pre as [| p pre IH]; simpl; [reflexivity | now rewrite IH].
Qed.

Lemma updateAt_beyond (i : nat) (f : VirtualLED.t -> VirtualLED.t) :
  forall l, nth_error l i = None -> UserInterface.updateAt i f l = l.
Proof.
  induction i as [| i IH]; intros [| x r] H; simpl in *;
    try reflexivity; try discriminate.
  now rewrite IH.
Qed.

Lemma updateAt_twice (i : nat) (f g : VirtualLED.t -> VirtualLED.t) :
  forall l,
    UserInterface.updateAt i g (UserInterface.updateAt i f l)
    = UserInterface.updateAt i (fun x => g (f x)) l.
Proof.
  induction i as [| i IH]; intros [| x r]; simpl; try reflexivity.
  now rewrite IH.
Qed.

Lemma updateAt_ext_at (i : nat) (f g : VirtualLED.t -> VirtualLED.t) :
  forall l x,
    nth_error l i = Some x -> f x = g x ->
    UserInterface.updateAt i f l = UserInterface.updateAt i g l.
Proof.
  induction i as [| i IH]; intros [| y r] x H E; simpl in *;
    try discriminate.
  - injection H as ->. now rewrite E.
  - now rewrite (IH r x H E).
Qed.


Lemma ids_map (f : VirtualLED.t -> VirtualLED.t) (l : list VirtualLED.t) :
  (forall x, VirtualLED.getId (f x) = VirtualLED.getId x) ->
  map VirtualLED.getId (map f l) = map VirtualLED.getId l.
Proof. intros Hf. rewrite map_map. apply map_ext. exact Hf. Qed.

(** The ids of a window reached from the constructor, below the [int]
    bound. *)
Lemma reached_ids (os : list UserInterface.op) :
  Z.of_nat (length (UserInterface.leds (reached os))) <= INT_MAX ->
  UserInterface.ids (reached os)
  = UserInterface.upto (length (UserInterface.leds (reached os))).
Proof.
  intros Hn.
  destruct (idsWrapped_run os UserInterface.new) as [Hids _].
  { split; reflexivity. }
  unfold reached. rewrite Hids. apply upto_wrap. exact Hn.
Qed.

Lemma reached_nextLedId (os : list UserInterface.op) :
  Z.of_nat (length (UserInterface.leds (reached os))) < INT_MAX ->
  UserInterface.nextLedId (reached os)
  = Z.of_nat (length (UserInterface.leds (reached os))) + 1.
Proof.
  intros Hn.
  destruct (idsWrapped_run os UserInterface.new) as [_ Hnext].
  { split; reflexivity. }
  unfold reached. rewrite Hnext. apply wrap32_small.
  unfold reached, INT_MAX in Hn. lia.
Qed.

Lemma findLEDById_seq (l : list VirtualLED.t) :
  forall (a : nat) (z : Z),
    map VirtualLED.getId l = map Z.of_nat (seq a (length l)) ->
    UserInterface.findLEDById l z
    = if (Z.of_nat a <=? z) && (z <? Z.of_nat a + Z.of_nat (length l))
      then Some (Z.to_nat z - a)%nat else None.
Proof.
  induction l as [| x r IH]; intros a z H.
  - cbn [UserInterface.findLEDById length].
    destruct (Z.of_nat a <=? z) eqn:E1; [| reflexivity].
    destruct (z <? Z.of_nat a + Z.of_nat 0) eqn:E2; [| reflexivity].
    apply Z.leb_le in E1. apply Z.ltb_lt in E2. lia.
  - cbn [UserInterface.findLEDById length seq map] in *.
    injection H as Hx Hr. rewrite Hx, (IH (S a) z Hr).
    destruct (Z.of_nat a =? z) eqn:E0.
    + apply Z.eqb_eq in E0. subst z.
      replace (Z.of_nat a <=? Z.of_nat a) with true
        by (symmetry; apply Z.leb_le; lia).
      replace (Z.of_nat a <? Z.of_nat a + Z.of_nat (S (length r))) with true
        by (symmetry; apply Z.ltb_lt; lia).
      simpl. f_equal. lia.
    + apply Z.eqb_neq in E0.
      destruct (Z.of_nat (S a) <=? z) eqn:E1;
        destruct (z <? Z.of_nat (S a) + Z.of_nat (length r)) eqn:E2;
        destruct (Z.of_nat a <=? z) eqn:E3;
        destruct (z <? Z.of_nat a + Z.of_nat (S (length r))) eqn:E4;
        simpl; try reflexivity;
        try apply Z.leb_le in E1; try apply Z.leb_gt in E1;
        try apply Z.ltb_lt in E2; try apply Z.ltb_ge in E2;
        try apply Z.leb_le in E3; try apply Z.leb_gt in E3;
        try apply Z.ltb_lt in E4; try apply Z.ltb_ge in E4;
        try lia.
      f_equal. lia.
Qed.

Lemma upto_nth (n i : nat) :
  (i < n)%nat -> nth_error (UserInterface.upto n) i = Some (Z.of_nat (S i)).
Proof.
  intros H. unfold UserInterface.upto.
  rewrite nth_error_map, nth_error_nth' with (d := O) by (rewrite length_seq; lia).
  rewrite seq_nth by lia. reflexivity.
Qed.

(** ** The flag invariant in the collection *)

Lemma Forall_flagOk_map (f : VirtualLED.t -> VirtualLED.t) (l : list VirtualLED.t) :
  (forall x, flagOk x -> flagOk (f x)) ->
  Forall flagOk l -> Forall flagOk (map f l).
Proof.
  intros Hf H. apply Forall_map. eapply Forall_impl; [| exact H]. exact Hf.
Qed.

Lemma Forall_flagOk_updateAt (i : nat) (f : VirtualLED.t -> VirtualLED.t) :
  (forall x, flagOk x -> flagOk (f x)) ->
  forall l, Forall flagOk l -> Forall flagOk (UserInterface.updateAt i f l).
Proof.
  intros Hf. induction i as [| i IH]; intros [| x r] H; simpl; auto;
    inversion H; subst; constructor; auto.
Qed.

Lemma Forall_flagOk_removeAt (i : nat) :
  forall l, Forall flagOk l -> Forall flagOk (UserInterface.removeAt i l).
Proof.
  induction i as [| i IH]; intros [| x r] H; simpl; auto;
    inversion H; subst; auto.
Qed.

Lemma Forall_flagOk_reassignFrom (l : list VirtualLED.t) :
  forall id, Forall flagOk l ->
             Forall flagOk (fst (UserInterface.reassignFrom id l)).
Proof.
  induction l as [| x r IH]; intros id H; cbn [UserInterface.reassignFrom].
  - constructor.
  - inversion H as [| ? ? Hx Hr]; subst.
    specialize (IH (wrap32 (id + 1)) Hr).
    destruct (UserInterface.reassignFrom (wrap32 (id + 1)) r) as [r' id'].
    cbn [fst] in *. constructor; [exact Hx | exact IH].
Qed.

Lemma Forall_flagOk_removeLED (ui : UserInterface.t) (id : Z) :
  Forall flagOk (UserInterface.leds ui) ->
  Forall flagOk (UserInterface.leds (UserInterface.removeLED ui id)).
Proof.
  intros H. unfold UserInterface.removeLED.
  destruct (UserInterface.findLEDById (UserInterface.leds ui) id) as [i |];
    [| exact H].
  unfold UserInterface.reassignLEDIds. cbn [UserInterface.leds].
  pose proof (Forall_flagOk_reassignFrom
                (UserInterface.removeAt i (UserInterface.leds ui)) 1
                (Forall_flagOk_removeAt i _ H)) as H'.
  destruct (UserInterface.reassignFrom 1
              (UserInterface.removeAt i (UserInterface.leds ui))) as [l n].
  exact H'.
Qed.

Lemma Forall_flagOk_changeLEDColor (ui : UserInterface.t) (id : Z) (c : QColor.t) :
  Forall flagOk (UserInterface.leds ui) ->
  Forall flagOk (UserInterface.leds (UserInterface.changeLEDColor ui id c)).
Proof.
  intros H. unfold UserInterface.changeLEDColor.
  destruct (UserInterface.findLEDById (UserInterface.leds ui) id); [| exact H].
  apply Forall_flagOk_updateAt; [| exact H].
  intros x _. apply flagOk_setColor.
Qed.

Lemma Forall_flagOk_step (ui : UserInterface.t) (o : UserInterface.op) :
  Forall flagOk (UserInterface.leds ui) ->
  Forall flagOk (UserInterface.leds (UserInterface.step ui o)).
Proof.
  intros H.
  destruct o as [| | | | id | id c | c | input | input | i e | i]; simpl.
  - apply Forall_app. split; [exact H |].
    constructor; [apply flagOk_new | constructor].
  - unfold UserInterface.turnAllLEDsOn.
    destruct (UserInterface.leds ui) as [| x0 r0] eqn:E;
      [simpl; rewrite E; exact H |].
    rewrite <- E in *.
    destruct (forallb VirtualLED.isOn (UserInterface.leds ui)); [exact H |].
    apply Forall_flagOk_map; [| exact H].
    intros x Hx. destruct (VirtualLED.isOn x); simpl; [exact Hx | reflexivity].
  - unfold UserInterface.turnAllLEDsOff.
    destruct (UserInterface.leds ui) as [| x0 r0] eqn:E;
      [simpl; rewrite E; exact H |].
    rewrite <- E in *.
    assert (H' : Forall flagOk
              (map (fun led => if VirtualLED.isOn led
                               then VirtualLED.turnOff led else led)
                   (UserInterface.leds ui))).
    { apply Forall_flagOk_map; [| exact H].
      intros x Hx. destruct (VirtualLED.isOn x); auto using flagOk_turnOff. }
    destruct (negb (existsb VirtualLED.isOn (UserInterface.leds ui))); exact H'.
  - unfold UserInterface.removeAllLEDs.
    destruct (UserInterface.leds ui) as [| x0 r0] eqn:E;
      [simpl; rewrite E; exact H | simpl; constructor].
  - apply Forall_flagOk_removeLED, H.
  - apply Forall_flagOk_changeLEDColor, H.
  - unfold UserInterface.changeAllLEDsColor.
    destruct (UserInterface.leds ui) as [| x0 r0] eqn:E;
      [simpl; rewrite E; exact H |].
    rewrite <- E in *.
    destruct (negb (existsb VirtualLED.isOn (UserInterface.leds ui))); [exact H |].
    destruct (QColor.isValid c); [| exact H].
    apply Forall_flagOk_map; [| exact H].
    intros x Hx. destruct (VirtualLED.isOn x); auto using flagOk_setColor.
  - unfold UserInterface.setAllLEDsBlinkSpeed.
    destruct (UserInterface.leds ui) as [| x0 r0] eqn:E;
      [simpl; rewrite E; exact H |].
    rewrite <- E in *.
    destruct (negb _); [exact H |].
    destruct input as [speed |]; [| exact H].
    apply Forall_flagOk_map; [| exact H].
    intros x Hx. destruct (VirtualLED.isOn x); auto using flagOk_setBlinkSpeed.
  - unfold UserInterface.setDurationForOnLEDs.
    destruct (UserInterface.leds ui) as [| x0 r0] eqn:E;
      [simpl; rewrite E; exact H |].
    rewrite <- E in *.
    destruct (negb _); [exact H |].
    destruct input as [duration |]; [| exact H].
    apply Forall_flagOk_map; [| exact H].
    intros x Hx. destruct (VirtualLED.isOn x); auto using flagOk_setDuration.
  - unfold UserInterface.ledEvent.
    destruct (nth_error (UserInterface.leds ui) i) as [l |]; [| exact H].
    assert (H' : Forall flagOk
              (UserInterface.updateAt i (fun l => VirtualLED.handle l e)
                 (UserInterface.leds ui))).
    { apply Forall_flagOk_updateAt; [| exact H].
      intros x Hx. apply flagOk_handle, Hx. }
    destruct e; try exact H'.
    destruct (VirtualLED.state l && QColor.isValid selectedColor); [| exact H'].
    apply Forall_flagOk_changeLEDColor. exact H'.
  - unfold UserInterface.contextRemove.
    destruct (nth_error (UserInterface.leds ui) i); [| exact H].
    apply Forall_flagOk_removeLED, H.
Qed.

(** X9.  In every state the window reaches from its constructor, every
    LED of the collection has its [state] flag equal to [isOn()]. *)
Theorem collection_flags_agree (os : list UserInterface.op) :
  Forall (fun l => VirtualLED.state l = VirtualLED.isOn l)
         (UserInterface.leds (reached os)).
Proof.
  unfold reached, UserInterface.run.
  assert (H : forall ui, Forall flagOk (UserInterface.leds ui) ->
                         Forall flagOk (UserInterface.leds
                                          (fold_left UserInterface.step os ui))).
  { induction os as [| o os IH]; intros ui Hui; simpl; [exact Hui |].
    apply IH, Forall_flagOk_step, Hui. }
  apply H. constructor.
Qed.

Lemma find_in_upto (l : list VirtualLED.t) (id : Z) :
  map VirtualLED.getId l = UserInterface.upto (length l) ->
  UserInterface.findLEDById l id
  = if (1 <=? id) && (id <=? Z.of_nat (length l))
    then Some (Z.to_nat id - 1)%nat else None.
Proof.
  intros Hids. unfold UserInterface.upto in Hids.
  rewrite (findLEDById_seq _ 1 id Hids).
  replace (Z.of_nat 1) with 1 by reflexivity.
  replace (id <? 1 + Z.of_nat (length l)) with (id <=? Z.of_nat (length l)).
  - reflexivity.
  - destruct (id <=? _) eqn:E1; destruct (id <? _) eqn:E2; try reflexivity;
      try apply Z.leb_le in E1; try apply Z.leb_gt in E1;
      try apply Z.ltb_lt in E2; try apply Z.ltb_ge in E2; lia.
Qed.

(** ** Adding and finding *)

(** X10.  In every state the window reaches from its constructor with
    fewer than [INT_MAX - 1] LEDs, [addNewLED] appends one LED, freshly
    constructed with id [n + 1] where [n] is the size before the call,
    keeps the LEDs already there, and leaves [nextLedId] at [n + 2]. *)
Theorem addNewLED_next_id (os : list UserInterface.op) :
  let ui := reached os in
  let n := length (UserInterface.leds ui) in
  Z.of_nat n + 1 < INT_MAX ->
  UserInterface.leds (UserInterface.addNewLED ui)
  = UserInterface.leds ui ++ [VirtualLED.new (Z.of_nat n + 1)]
  /\ UserInterface.nextLedId (UserInterface.addNewLED ui) = Z.of_nat n + 2
  /\ UserInterface.findLEDById
       (UserInterface.leds (UserInterface.addNewLED ui)) (Z.of_nat n + 1)
     = Some n.
Proof.
  intros ui n Hn. subst ui n.
  assert (Hnext := reached_nextLedId os ltac:(lia)).
  assert (Hids := reached_ids os ltac:(lia)).
  unfold UserInterface.addNewLED. cbn [UserInterface.leds UserInterface.nextLedId].
  rewrite Hnext. split; [reflexivity | split].
  - rewrite wrap32_small; unfold INT_MAX in Hn; lia.
  - apply findLEDById_first; [reflexivity |].
    intros y Hy.
    assert (Hin : In (VirtualLED.getId y) (UserInterface.ids (reached os)))
      by (apply in_map; exact Hy).
    rewrite Hids in Hin. apply upto_members in Hin. lia.
Qed.

Lemma addNewLED_next_id_witness :
  UserInterface.leds (UserInterface.addNewLED uiThree)
  = UserInterface.leds uiThree ++ [VirtualLED.new 4].
Proof.
  destruct (addNewLED_next_id
              [UserInterface.AddNewLED; UserInterface.AddNewLED;
               UserInterface.AddNewLED]) as [H _].
  - reflexivity.
  - exact H.
Defined.

Lemma findLEDById_some_in (l : list VirtualLED.t) :
  forall id i,
    UserInterface.findLEDById l id = Some i ->
    exists y, In y l /\ VirtualLED.getId y = id.
Proof.
  induction l as [| p l IH]; intros id i H; simpl in H; [discriminate |].
  destruct (VirtualLED.getId p =? id) eqn:Ep.
  - exists p. split; [now left | now apply Z.eqb_eq].
  - destruct (UserInterface.findLEDById l id) as [j |] eqn:Ej; [| discriminate].
    destruct (IH _ _ Ej) as [y [Hy Hid]].
    exists y. split; [now right | exact Hid].
Qed.

(** X11.  [findLEDById] returns the position of the first LED with the
    given id: the LED there has that id and no LED before it has; it
    returns [nullptr] exactly when no LED of the list has that id. *)
Theorem findLEDById_first_match (l : list VirtualLED.t) (id : Z) :
  (forall i,
     UserInterface.findLEDById l id = Some i ->
     exists pre x post,
       l = pre ++ x :: post /\ length pre = i
       /\ VirtualLED.getId x = id
       /\ forall y, In y pre -> VirtualLED.getId y <> id)
  /\
  (UserInterface.findLEDById l id = None <->
   forall y, In y l -> VirtualLED.getId y <> id).
Proof.
  assert (Hnone : UserInterface.findLEDById l id = None ->
                  forall y, In y l -> VirtualLED.getId y <> id).
  { intros Hf y Hy Hid.
    destruct (first_occurrence l id) as [pre [x [post [Hl [Hx Hpre]]]]];
      [exists y; auto |].
    rewrite Hl, (findLEDById_first pre x post id Hx Hpre) in Hf. discriminate. }
  split; [| split; [exact Hnone | apply findLEDById_absent]].
  intros i Hf.
  destruct (first_occurrence l id) as [pre [x [post [Hl [Hx Hpre]]]]].
  - exact (findLEDById_some_in l id i Hf).
  - exists pre, x, post.
    rewrite Hl, (findLEDById_first pre x post id Hx Hpre) in Hf.
    injection Hf as <-. repeat split; assumption.
Qed.

Lemma findLEDById_first_match_witness :
  exists pre x post,
    UserInterface.leds uiThree = pre ++ x :: post /\ length pre = 1%nat
    /\ VirtualLED.getId x = 2
    /\ forall y, In y pre -> VirtualLED.getId y <> 2.
Proof.
  destruct (findLEDById_first_match (UserInterface.leds uiThree) 2) as [H _].
  apply H. reflexivity.
Defined.

(** X12.  In every state the window reaches from its constructor with
    at most [INT_MAX] LEDs, looking up an id between 1 and the size of the
    collection finds the LED at position [id - 1], and looking up any
    other id finds nothing. *)
Theorem findLEDById_reached (os : list UserInterface.op) (id : Z) :
  let ui := reached os in
  let n := length (UserInterface.leds ui) in
  Z.of_nat n <= INT_MAX ->
  UserInterface.findLEDById (UserInterface.leds ui) id
  = if (1 <=? id) && (id <=? Z.of_nat n)
    then Some (Z.to_nat id - 1)%nat else None.
Proof.
  intros ui n Hn. subst ui n.
  apply find_in_upto. apply (reached_ids os Hn).
Qed.

Lemma findLEDById_reached_witness :
  UserInterface.findLEDById (UserInterface.leds uiThree) 3 = Some 2%nat
  /\ UserInterface.findLEDById (UserInterface.leds uiThree) 4 = None.
Proof.
  change uiThree
    with (reached [UserInterface.AddNewLED; UserInterface.AddNewLED;
                   UserInterface.AddNewLED]).
  split.
  - rewrite findLEDById_reached; [reflexivity | discriminate].
  - rewrite findLEDById_reached; [reflexivity | discriminate].
Defined.

(** ** Events on single LEDs *)

Lemma updateAt_other (i j : nat) (f : VirtualLED.t -> VirtualLED.t) :
  i <> j ->
  forall l, nth_error (UserInterface.updateAt i f l) j = nth_error l j.
Proof.
  revert j. induction i as [| i IH]; intros [| j] Hij [| x r]; simpl;
    try reflexivity; try contradiction.
  apply IH. congruence.
Qed.

Lemma nth_id_reached (os : list UserInterface.op) (i : nat) (l : VirtualLED.t) :
  Z.of_nat (length (UserInterface.leds (reached os))) <= INT_MAX ->
  nth_error (UserInterface.leds (reached os)) i = Some l ->
  VirtualLED.getId l = Z.of_nat (S i).
Proof.
  intros Hn Hl.
  assert (Hlt : (i < length (UserInterface.leds (reached os)))%nat)
    by (apply nth_error_Some; congruence).
  pose proof (reached_ids os Hn) as Hids.
  pose proof (map_nth_error VirtualLED.getId i _ Hl) as H1.
  unfold UserInterface.ids in Hids. rewrite Hids, upto_nth in H1 by exact Hlt.
  congruence.
Qed.




(** X14.  In every state the window reaches from its constructor with at
    most [INT_MAX] LEDs, an event on the LED at position [i] (click, timer
    expiry, context-menu dialog, including the [colorChanged] signal the
    colour dialog sends back through [changeLEDColor]) has on that LED the
    effect of its handler and changes no other LED, no id and not
    [nextLedId]. *)
Theorem ledEvent_touches_one (os : list UserInterface.op) (i : nat)
    (e : VirtualLED.event) :
  let ui := reached os in
  Z.of_nat (length (UserInterface.leds ui)) <= INT_MAX ->
  UserInterface.ledEvent ui i e
  = UserInterface.mk
      (UserInterface.updateAt i (fun l => VirtualLED.handle l e)
         (UserInterface.leds ui))
      (UserInterface.nextLedId ui)
  /\ (forall j, j <> i ->
        nth_error (UserInterface.leds (UserInterface.ledEvent ui i e)) j
        = nth_error (UserInterface.leds ui) j)
  /\ UserInterface.ids (UserInterface.ledEvent ui i e) = UserInterface.ids ui.
Proof.
  intros ui Hn. subst ui.
  assert (Heq : UserInterface.ledEvent (reached os) i e
                = UserInterface.mk
                    (UserInterface.updateAt i (fun l => VirtualLED.handle l e)
                       (UserInterface.leds (reached os)))
                    (UserInterface.nextLedId (reached os))).
  { unfold UserInterface.ledEvent.
    destruct (nth_error (UserInterface.leds (reached os)) i) as [l |] eqn:El.
    - destruct e as [b | | | c | inp | inp]; try reflexivity.
      destruct (VirtualLED.state l && QColor.isValid c) eqn:Ec; [| reflexivity].
      apply andb_true_iff in Ec. destruct Ec as [Hst Hval].
      unfold UserInterface.changeLEDColor.
      cbn [UserInterface.leds UserInterface.nextLedId].
      assert (Hfind : UserInterface.findLEDById
                        (UserInterface.updateAt i
                           (fun l0 => VirtualLED.handle l0 (VirtualLED.ContextChangeColor c))
                           (UserInterface.leds (reached os)))
                        (VirtualLED.getId l) = Some i).
      { destruct (updateAt_ids i
                    (fun l0 => VirtualLED.handle l0 (VirtualLED.ContextChangeColor c))
                    (fun x => getId_handle x _)
                    (UserInterface.leds (reached os))) as [Hids Hlen].
        pose proof (reached_ids os Hn) as Hup. unfold UserInterface.ids in Hup.
        rewrite find_in_upto by (rewrite Hids, Hlen; exact Hup).
        rewrite Hlen, (nth_id_reached os i l Hn El).
        assert (Hlt : (i < length (UserInterface.leds (reached os)))%nat)
          by (apply nth_error_Some; congruence).
        replace (1 <=? Z.of_nat (S i)) with true
          by (symmetry; apply Z.leb_le; lia).
        replace (Z.of_nat (S i)
                 <=? Z.of_nat (length (UserInterface.leds (reached os))))
          with true by (symmetry; apply Z.leb_le; lia).
        simpl. f_equal. lia. }
      rewrite Hfind, updateAt_twice. f_equal.
      apply (updateAt_ext_at i _ _ _ l El).
      simpl. unfold VirtualLED.contextChangeColor. rewrite Hst, Hval.
      reflexivity.
    - rewrite updateAt_beyond by exact El. symmetry. apply ui_eta. }
  rewrite Heq. cbn [UserInterface.leds]. split; [reflexivity | split].
  - intros j Hj. apply updateAt_other. congruence.
  - unfold UserInterface.ids. cbn [UserInterface.leds].
    apply (updateAt_ids i _ (fun x => getId_handle x e)).
Qed.

Lemma ledEvent_touches_one_witness :
  UserInterface.ledEvent uiThree 1 (VirtualLED.MousePress true)
  = UserInterface.mk
      (UserInterface.updateAt 1
         (fun l => VirtualLED.handle l (VirtualLED.MousePress true))
         (UserInterface.leds uiThree))
      (UserInterface.nextLedId uiThree).
Proof.
  change uiThree
    with (reached [UserInterface.AddNewLED; UserInterface.AddNewLED;
                   UserInterface.AddNewLED]).
  destruct (ledEvent_touches_one
              [UserInterface.AddNewLED; UserInterface.AddNewLED;
               UserInterface.AddNewLED] 1 (VirtualLED.MousePress true))
    as [H _].
  - discriminate.
  - exact H.
Defined.

(** ** Recolouring one LED *)

(** X15.  [changeLEDColor(id, color)] applies [setColor(color)] to the
    first LED with that id, whether it is on or off, and changes nothing
    else; when no LED has that id it changes nothing. *)
Theorem changeLEDColor_spec (ui : UserInterface.t) (id : Z) (color : QColor.t) :
  ((exists y, In y (UserInterface.leds ui) /\ VirtualLED.getId y = id) ->
   exists pre x post,
     UserInterface.leds ui = pre ++ x :: post
     /\ VirtualLED.getId x = id
     /\ (forall y, In y pre -> VirtualLED.getId y <> id)
     /\ UserInterface.changeLEDColor ui id color
        = UserInterface.mk (pre ++ VirtualLED.setColor x color :: post)
                           (UserInterface.nextLedId ui))
  /\
  ((forall y, In y (UserInterface.leds ui) -> VirtualLED.getId y <> id) ->
   UserInterface.changeLEDColor ui id color = ui).
Proof.
  split.
  - intros Hin.
    destruct (first_occurrence _ _ Hin) as [pre [x [post [Hl [Hx Hpre]]]]].
    exists pre, x, post.
    split; [exact Hl |]. split; [exact Hx |]. split; [exact Hpre |].
    unfold UserInterface.changeLEDColor.
    rewrite Hl, (findLEDById_first pre x post id Hx Hpre), updateAt_middle.
    reflexivity.
  - intros Habs. unfold UserInterface.changeLEDColor.
    rewrite findLEDById_absent by exact Habs. reflexivity.
Qed.

Lemma changeLEDColor_spec_witness :
  UserInterface.changeLEDColor uiThree 9 red = uiThree
  /\ exists pre x post,
       UserInterface.leds uiThree = pre ++ x :: post
       /\ VirtualLED.getId x = 2
       /\ (forall y, In y pre -> VirtualLED.getId y <> 2)
       /\ UserInterface.changeLEDColor uiThree 2 red
          = UserInterface.mk (pre ++ VirtualLED.setColor x red :: post)
                             (UserInterface.nextLedId uiThree).
Proof.
  split.
  - destruct (changeLEDColor_spec uiThree 9 red) as [_ H].
    apply H. intros y [<- | [<- | [<- | []]]]; discriminate.
  - destruct (changeLEDColor_spec uiThree 2 red) as [H _].
    apply H. exists (VirtualLED.new 2). split; [right; left |]; reflexivity.
Defined.

(** ** What the commands leave alone *)

Lemma frame_map (f : VirtualLED.t -> VirtualLED.t) (ui : UserInterface.t) :
  (forall x, VirtualLED.getId (f x) = VirtualLED.getId x) ->
  UserInterface.ids
    (UserInterface.mk (map f (UserInterface.leds ui)) (UserInterface.nextLedId ui))
  = UserInterface.ids ui.
Proof. intros Hf. unfold UserInterface.ids. simpl. apply ids_map, Hf. Qed.

Lemma frame_changeLEDColor (ui : UserInterface.t) (id : Z) (c : QColor.t) :
  UserInterface.ids (UserInterface.changeLEDColor ui id c) = UserInterface.ids ui
  /\ UserInterface.nextLedId (UserInterface.changeLEDColor ui id c)
     = UserInterface.nextLedId ui.
Proof.
  unfold UserInterface.changeLEDColor.
  destruct (UserInterface.findLEDById (UserInterface.leds ui) id) as [i |];
    [| split; reflexivity].
  split; [| reflexivity].
  unfold UserInterface.ids. simpl.
  apply (updateAt_ids i (fun l => VirtualLED.setColor l c) (fun x => eq_refl)).
Qed.

(** X16.  Only [addNewLED], [removeAllLEDs], [removeLED] and the context
    menu's "Remove" change which LEDs the collection holds: every other
    slot and every event on an LED, in any state of the window, keeps the
    sequence of ids (hence the size and the order) and [nextLedId]. *)
Theorem membership_frame (ui : UserInterface.t) (o : UserInterface.op) :
  UserInterface.changesMembership o = false ->
  UserInterface.ids (UserInterface.step ui o) = UserInterface.ids ui
  /\ UserInterface.nextLedId (UserInterface.step ui o) = UserInterface.nextLedId ui.
Proof.
  intros Ho.
  destruct o as [| | | | id | id c | c | input | input | i e | i];
    simpl in Ho; try discriminate; simpl.
  - unfold UserInterface.turnAllLEDsOn.
    destruct (UserInterface.leds ui) as [| x0 r0] eqn:E; [split; reflexivity |].
    rewrite <- E.
    destruct (forallb VirtualLED.isOn (UserInterface.leds ui));
      [split; reflexivity |].
    split; [| reflexivity]. apply frame_map.
    intros x. destruct (VirtualLED.isOn x); reflexivity.
  - unfold UserInterface.turnAllLEDsOff.
    destruct (UserInterface.leds ui) as [| x0 r0] eqn:E; [split; reflexivity |].
    rewrite <- E.
    assert (H : UserInterface.ids
                  (UserInterface.mk
                     (map (fun led => if VirtualLED.isOn led
                                      then VirtualLED.turnOff led else led)
                          (UserInterface.leds ui))
                     (UserInterface.nextLedId ui))
                = UserInterface.ids ui).
    { apply frame_map. intros x.
      destruct (VirtualLED.isOn x); [apply getId_turnOff | reflexivity]. }
    destruct (negb (existsb VirtualLED.isOn (UserInterface.leds ui)));
      split; try exact H; reflexivity.
  - apply frame_changeLEDColor.
  - unfold UserInterface.changeAllLEDsColor.
    destruct (UserInterface.leds ui) as [| x0 r0] eqn:E; [split; reflexivity |].
    rewrite <- E.
    destruct (negb (existsb VirtualLED.isOn (UserInterface.leds ui)));
      [split; reflexivity |].
    destruct (QColor.isValid c); [| split; reflexivity].
    split; [| reflexivity]. apply frame_map.
    intros x. destruct (VirtualLED.isOn x); reflexivity.
  - unfold UserInterface.setAllLEDsBlinkSpeed.
    destruct (UserInterface.leds ui) as [| x0 r0] eqn:E; [split; reflexivity |].
    rewrite <- E.
    destruct (negb _); [split; reflexivity |].
    destruct input as [speed |]; [| split; reflexivity].
    split; [| reflexivity]. apply frame_map.
    intros x. destruct (VirtualLED.isOn x);
      [apply getId_setBlinkSpeed | reflexivity].
  - unfold UserInterface.setDurationForOnLEDs.
    destruct (UserInterface.leds ui) as [| x0 r0] eqn:E; [split; reflexivity |].
    rewrite <- E.
    destruct (negb _); [split; reflexivity |].
    destruct input as [duration |]; [| split; reflexivity].
    split; [| reflexivity]. apply frame_map.
    intros x. destruct (VirtualLED.isOn x);
      [apply getId_setDuration | reflexivity].
  - unfold UserInterface.ledEvent.
    destruct (nth_error (UserInterface.leds ui) i) as [l |];
      [| split; reflexivity].
    assert (H : UserInterface.ids
                  (UserInterface.mk
                     (UserInterface.updateAt i (fun l => VirtualLED.handle l e)
                        (UserInterface.leds ui))
                     (UserInterface.nextLedId ui))
                = UserInterface.ids ui).
    { unfold UserInterface.ids. simpl.
      apply (updateAt_ids i _ (fun x => getId_handle x e)). }
    destruct e; try (split; [exact H | reflexivity]).
    destruct (VirtualLED.state l && QColor.isValid selectedColor);
      [| split; [exact H | reflexivity]].
    destruct (frame_changeLEDColor
                (UserInterface.mk
                   (UserInterface.updateAt i
                      (fun l0 => VirtualLED.handle l0
                                   (VirtualLED.ContextChangeColor selectedColor))
                      (UserInterface.leds ui))
                   (UserInterface.nextLedId ui))
                (VirtualLED.getId l) selectedColor) as [H1 H2].
    split; [rewrite H1; exact H | rewrite H2; reflexivity].
Qed.

Lemma membership_frame_witness :
  UserInterface.ids
    (UserInterface.step uiFirstOnTimed UserInterface.TurnAllLEDsOff)
  = UserInterface.ids uiFirstOnTimed.
Proof.
  destruct (membership_frame uiFirstOnTimed UserInterface.TurnAllLEDsOff)
    as [H _].
  - reflexivity.
  - exact H.
Defined.

(** ** The remaining bulk commands *)

Lemma turnedOff_one (l : VirtualLED.t) :
  flagOk l ->
  turnedOff l (if VirtualLED.isOn l then VirtualLED.turnOff l else l).
Proof.
  unfold flagOk, turnedOff. intros H.
  destruct (VirtualLED.isOn l) eqn:E.
  - unfold VirtualLED.turnOff. rewrite H. simpl.
    repeat split; intros; try reflexivity; discriminate.
  - repeat split; intros; try reflexivity; try discriminate. exact E.
Qed.

(** X17.  [turnAllLEDsOff] on an empty collection opens the "No LEDs
    available" warning and changes nothing; on a non-empty collection with
    no LED on it opens the "Operation Ineffective" notice and changes
    nothing; on a collection of LEDs whose flags agree with their colours
    and of which at least one is on, it opens nothing and leaves every LED
    off: those that were on with the blink timer stopped and the phase
    visible, those that were off untouched, and no auto-off timer, id or
    blink speed changed. *)
Theorem turnAllLEDsOff_spec (ui : UserInterface.t) :
  (UserInterface.leds ui = [] ->
   UserInterface.turnAllLEDsOff ui
   = (ui, [UserInterface.Warning "Operation Failed"
                                 "<b>No LEDs available to turn off.</b>"]))
  /\
  (UserInterface.leds ui <> [] ->
   (forall l, In l (UserInterface.leds ui) -> VirtualLED.isOn l = false) ->
   UserInterface.turnAllLEDsOff ui
   = (ui, [UserInterface.Warning "Operation Ineffective"
                                 "<b>All LEDs are already off.</b>"]))
  /\
  (Forall flagOk (UserInterface.leds ui) ->
   (exists l, In l (UserInterface.leds ui) /\ VirtualLED.isOn l = true) ->
   let r := UserInterface.turnAllLEDsOff ui in
   snd r = []
   /\ UserInterface.nextLedId (fst r) = UserInterface.nextLedId ui
   /\ Forall2 turnedOff (UserInterface.leds ui) (UserInterface.leds (fst r))
   /\ Forall (fun l => VirtualLED.isOn l = false) (UserInterface.leds (fst r))).
Proof.
  split; [| split].
  - unfold UserInterface.turnAllLEDsOff. intros ->. reflexivity.
  - intros Hne Hnone. unfold UserInterface.turnAllLEDsOff.
    destruct (UserInterface.leds ui) as [| x0 r0] eqn:E; [contradiction |].
    rewrite <- E in *.
    rewrite (existsb_false_of_none _ _ Hnone). cbn [negb].
    rewrite map_fixed, ui_eta; [reflexivity |].
    intros x Hx. rewrite (Hnone x Hx). reflexivity.
  - intros Hflags [l [Hin Hon]] r.
    assert (He : existsb VirtualLED.isOn (UserInterface.leds ui) = true)
      by (apply existsb_exists; exists l; auto).
    assert (Hr : r = (UserInterface.mk
                        (map (fun led => if VirtualLED.isOn led
                                         then VirtualLED.turnOff led else led)
                             (UserInterface.leds ui))
                        (UserInterface.nextLedId ui), [])).
    { unfold r, UserInterface.turnAllLEDsOff.
      destruct (UserInterface.leds ui) as [| x0 r0] eqn:E; [destruct Hin |].
      rewrite <- E in *. rewrite He. reflexivity. }
    rewrite Hr. cbn [fst snd UserInterface.leds UserInterface.nextLedId].
    split; [reflexivity |]. split; [reflexivity |].
    rewrite Forall_forall in Hflags. split.
    + apply Forall2_map_self. intros x Hx. apply turnedOff_one, Hflags, Hx.
    + apply Forall_map, Forall_forall. intros x Hx.
      destruct (turnedOff_one x (Hflags x Hx)) as [H1 _]. exact H1.
Qed.

Lemma turnAllLEDsOff_spec_witness :
  snd (UserInterface.turnAllLEDsOff UserInterface.new)
  = [UserInterface.Warning "Operation Failed" "<b>No LEDs available to turn off.</b>"]
  /\ UserInterface.turnAllLEDsOff uiThree
     = (uiThree, [UserInterface.Warning "Operation Ineffective"
                                        "<b>All LEDs are already off.</b>"])
  /\ Forall (fun l => VirtualLED.isOn l = false)
            (UserInterface.leds (fst (UserInterface.turnAllLEDsOff uiFirstOnTimed))).
Proof.
  split; [| split].
  - destruct (turnAllLEDsOff_spec UserInterface.new) as [H _].
    rewrite H; reflexivity.
  - destruct (turnAllLEDsOff_spec uiThree) as [_ [H _]].
    apply H; [discriminate |].
    intros l [<- | [<- | [<- | []]]]; reflexivity.
  - destruct (turnAllLEDsOff_spec uiFirstOnTimed) as [_ [_ H]].
    apply H.
    + repeat constructor.
    + eexists. split; [left; reflexivity | reflexivity].
Defined.

(** X18.  [removeAllLEDs] on an empty collection opens a warning and
    changes nothing; on a non-empty one it returns the window to the state
    of its constructor, whatever [nextLedId] was, so that the next LED
    added is alone and has id 1. *)
Theorem removeAllLEDs_spec (ui : UserInterface.t) :
  (UserInterface.leds ui = [] ->
   UserInterface.removeAllLEDs ui
   = (ui, [UserInterface.Warning "Operation Failed"
                                 "<b>No LEDs available to remove.</b>"]))
  /\
  (UserInterface.leds ui <> [] ->
   UserInterface.removeAllLEDs ui = (UserInterface.new, [])
   /\ UserInterface.addNewLED (fst (UserInterface.removeAllLEDs ui))
      = UserInterface.mk [VirtualLED.new 1] 2).
Proof.
  unfold UserInterface.removeAllLEDs. split.
  - intros ->. reflexivity.
  - intros Hne.
    destruct (UserInterface.leds ui) as [| x0 r0]; [contradiction |].
    split; reflexivity.
Qed.

Lemma removeAllLEDs_spec_witness :
  UserInterface.removeAllLEDs uiAllOn = (UserInterface.new, [])
  /\ snd (UserInterface.removeAllLEDs UserInterface.new)
     = [UserInterface.Warning "Operation Failed" "<b>No LEDs available to remove.</b>"].
Proof.
  split.
  - destruct (removeAllLEDs_spec uiAllOn) as [_ H].
    destruct H as [H _]; [discriminate | exact H].
  - destruct (removeAllLEDs_spec UserInterface.new) as [H _].
    rewrite H; reflexivity.
Defined.

Lemma appliedToOn_one (f : VirtualLED.t -> VirtualLED.t) (l : VirtualLED.t) :
  appliedToOn f l (if VirtualLED.isOn l then f l else l).
Proof.
  unfold appliedToOn. destruct (VirtualLED.isOn l); split; intros H;
    try discriminate; reflexivity.
Qed.

Lemma existsb_onOrBlinking (l : list VirtualLED.t) :
  (exists x, In x l /\ (VirtualLED.isOn x = true \/ 0 < VirtualLED.getBlinkSpeed x)) ->
  existsb (fun led => VirtualLED.isOn led || (VirtualLED.getBlinkSpeed led >? 0)) l
  = true.
Proof.
  intros [x [Hin Hx]]. apply existsb_exists. exists x. split; [exact Hin |].
  apply orb_true_iff. destruct Hx as [Hx | Hx]; [now left | right].
  apply Z.gtb_lt. exact Hx.
Qed.

(** X19.  [setAllLEDsBlinkSpeed] on an empty collection, and on one in
    which no LED is on and none has a positive blink speed, opens a
    warning and changes nothing.  Otherwise the dialog is consulted: if
    it is not accepted nothing changes; if it returns a speed, the LEDs
    that are on get [setBlinkSpeed(speed)] and the others are untouched.
    In particular, when no LED is on but one has a positive blink speed
    remembered, the command changes nothing and opens no warning, whatever
    the dialog returns. *)
Theorem setAllLEDsBlinkSpeed_spec (ui : UserInterface.t) (input : option Z) :
  (UserInterface.leds ui = [] ->
   UserInterface.setAllLEDsBlinkSpeed ui input
   = (ui, [UserInterface.Warning "Operation Failed"
                                 "<b>No LEDs available to set blinking speed.</b>"]))
  /\
  (UserInterface.leds ui <> [] ->
   (forall l, In l (UserInterface.leds ui) ->
              VirtualLED.isOn l = false /\ VirtualLED.getBlinkSpeed l <= 0) ->
   UserInterface.setAllLEDsBlinkSpeed ui input
   = (ui, [UserInterface.Warning
             "Operation Failed"
             "<b>At least one LED must be on to set blinking speed.</b>"]))
  /\
  ((exists l, In l (UserInterface.leds ui)
              /\ (VirtualLED.isOn l = true \/ 0 < VirtualLED.getBlinkSpeed l)) ->
   let r := UserInterface.setAllLEDsBlinkSpeed ui input in
   snd r = []
   /\ match input with
      | Some speed =>
          UserInterface.nextLedId (fst r) = UserInterface.nextLedId ui
          /\ Forall2 (appliedToOn (fun l => VirtualLED.setBlinkSpeed l speed))
                     (UserInterface.leds ui) (UserInterface.leds (fst r))
      | None => fst r = ui
      end
   /\ ((forall l, In l (UserInterface.leds ui) -> VirtualLED.isOn l = false) ->
       fst r = ui)).
Proof.
  split; [| split].
  - unfold UserInterface.setAllLEDsBlinkSpeed. intros ->. reflexivity.
  - intros Hne Hnone. unfold UserInterface.setAllLEDsBlinkSpeed.
    destruct (UserInterface.leds ui) as [| x0 r0] eqn:E; [contradiction |].
    rewrite <- E in *.
    rewrite existsb_false_of_none; [reflexivity |].
    intros x Hx. destruct (Hnone x Hx) as [H1 H2]. rewrite H1. simpl.
    rewrite Z.gtb_ltb. apply Z.ltb_ge. exact H2.
  - intros Hex r.
    pose proof (existsb_onOrBlinking _ Hex) as He.
    assert (Hr : r = match input with
                     | Some speed =>
                         (UserInterface.mk
                            (map (fun led =>
                                    if VirtualLED.isOn led
                                    then VirtualLED.setBlinkSpeed led speed
                                    else led)
                                 (UserInterface.leds ui))
                            (UserInterface.nextLedId ui), [])
                     | None => (ui, [])
                     end).
    { unfold r, UserInterface.setAllLEDsBlinkSpeed.
      destruct (UserInterface.leds ui) as [| x0 r0] eqn:E;
        [destruct Hex as [l [[] _]] |].
      rewrite <- E in *. rewrite He. reflexivity. }
    rewrite Hr. destruct input as [speed |];
      cbn [fst snd UserInterface.leds UserInterface.nextLedId].
    + split; [reflexivity |]. split.
      * split; [reflexivity |].
        apply Forall2_map_self. intros x _. apply appliedToOn_one.
      * intros Hoff. rewrite map_fixed; [apply ui_eta |].
        intros x Hx. rewrite (Hoff x Hx). reflexivity.
    + repeat split.
Qed.

Lemma setAllLEDsBlinkSpeed_spec_witness :
  UserInterface.setAllLEDsBlinkSpeed uiOffOneBlinking (Some 700)
  = (uiOffOneBlinking, [])
  /\ snd (UserInterface.setAllLEDsBlinkSpeed uiThree (Some 700))
     = [UserInterface.Warning
          "Operation Failed"
          "<b>At least one LED must be on to set blinking speed.</b>"].
Proof.
  split.
  - destruct (setAllLEDsBlinkSpeed_spec uiOffOneBlinking (Some 700))
      as [_ [_ H]].
    destruct H as [H1 [_ H3]].
    + eexists. split; [right; left; reflexivity | right; reflexivity].
    + rewrite (surjective_pairing
                 (UserInterface.setAllLEDsBlinkSpeed uiOffOneBlinking (Some 700))).
      rewrite H1, H3; [reflexivity |].
      intros l [<- | [<- | [<- | []]]]; reflexivity.
  - destruct (setAllLEDsBlinkSpeed_spec uiThree (Some 700)) as [_ [H _]].
    rewrite H; [reflexivity | discriminate |].
    intros l [<- | [<- | [<- | []]]]; split; discriminate || reflexivity.
Defined.

(** X20.  [setDurationForOnLEDs] on an empty collection, and on one with
    no LED on, opens a warning and changes nothing.  Otherwise the dialog
    is consulted: if it is not accepted nothing changes; if it returns a
    duration, the LEDs that are on get [setDuration(duration)] and the
    others are untouched, so that the duration 0, which the dialog
    accepts, changes nothing at all. *)
Theorem setDurationForOnLEDs_spec (ui : UserInterface.t) (input : option Z) :
  (UserInterface.leds ui = [] ->
   UserInterface.setDurationForOnLEDs ui input
   = (ui, [UserInterface.Warning "Operation Failed"
                                 "<b>No LEDs available to set duration.</b>"]))
  /\
  (UserInterface.leds ui <> [] ->
   (forall l, In l (UserInterface.leds ui) -> VirtualLED.isOn l = false) ->
   UserInterface.setDurationForOnLEDs ui input
   = (ui, [UserInterface.Warning
             "Operation Failed"
             "<b>At least one LED must be on to set duration.</b>"]))
  /\
  ((exists l, In l (UserInterface.leds ui) /\ VirtualLED.isOn l = true) ->
   let r := UserInterface.setDurationForOnLEDs ui input in
   snd r = []
   /\ match input with
      | Some duration =>
          UserInterface.nextLedId (fst r) = UserInterface.nextLedId ui
          /\ Forall2 (appliedToOn (fun l => VirtualLED.setDuration l duration))
                     (UserInterface.leds ui) (UserInterface.leds (fst r))
          /\ (duration <= 0 -> fst r = ui)
      | None => fst r = ui
      end).
Proof.
  split; [| split].
  - unfold UserInterface.setDurationForOnLEDs. intros ->. reflexivity.
  - intros Hne Hnone. unfold UserInterface.setDurationForOnLEDs.
    destruct (UserInterface.leds ui) as [| x0 r0] eqn:E; [contradiction |].
    rewrite <- E in *.
    rewrite (existsb_false_of_none _ _ Hnone). reflexivity.
  - intros [l [Hin Hon]] r.
    assert (He : existsb VirtualLED.isOn (UserInterface.leds ui) = true)
      by (apply existsb_exists; exists l; auto).
    assert (Hr : r = match input with
                     | Some duration =>
                         (UserInterface.mk
                            (map (fun led =>
                                    if VirtualLED.isOn led
                                    then VirtualLED.setDuration led duration
                                    else led)
                                 (UserInterface.leds ui))
                            (UserInterface.nextLedId ui), [])
                     | None => (ui, [])
                     end).
    { unfold r, UserInterface.setDurationForOnLEDs.
      destruct (UserInterface.leds ui) as [| x0 r0] eqn:E; [destruct Hin |].
      rewrite <- E in *. rewrite He. reflexivity. }
    rewrite Hr. destruct input as [duration |];
      cbn [fst snd UserInterface.leds UserInterface.nextLedId].
    + split; [reflexivity |]. split; [reflexivity |]. split.
      * apply Forall2_map_self. intros x _. apply appliedToOn_one.
      * intros Hle. rewrite map_fixed; [apply ui_eta |].
        intros x _. unfold VirtualLED.setDuration.
        replace (duration >? 0) with false
          by (symmetry; rewrite Z.gtb_ltb; apply Z.ltb_ge; exact Hle).
        destruct (VirtualLED.isOn x); reflexivity.
    + split; reflexivity.
Qed.

Lemma setDurationForOnLEDs_spec_witness :
  UserInterface.setDurationForOnLEDs uiAllOn (Some 0) = (uiAllOn, [])
  /\ snd (UserInterface.setDurationForOnLEDs uiThree (Some 10))
     = [UserInterface.Warning
          "Operation Failed"
          "<b>At least one LED must be on to set duration.</b>"].
Proof.
  split.
  - destruct (setDurationForOnLEDs_spec uiAllOn (Some 0)) as [_ [_ H]].
    destruct H as [H1 [_ [_ H4]]].
    + eexists. split; [left; reflexivity | reflexivity].
    + rewrite (surjective_pairing
                 (UserInterface.setDurationForOnLEDs uiAllOn (Some 0))).
      rewrite H1, H4; [reflexivity | lia].
  - destruct (setDurationForOnLEDs_spec uiThree (Some 10)) as [_ [H _]].
    rewrite H; [reflexivity | discriminate |].
    intros l [<- | [<- | [<- | []]]]; reflexivity.
Defined.

(** X21.  On a non-empty collection, a second [turnAllLEDsOn] right after
    a first one always opens the "already turned on" warning and changes
    nothing. *)
Theorem turnAllLEDsOn_twice (ui : UserInterface.t) :
  UserInterface.leds ui <> [] ->
  UserInterface.turnAllLEDsOn (fst (UserInterface.turnAllLEDsOn ui))
  = (fst (UserInterface.turnAllLEDsOn ui),
     [UserInterface.Warning "Operation Failed"
                            "<b>All LEDs are already turned on.</b>"]).
Proof.
  intros Hne.
  assert (Hwarn : forall u,
             UserInterface.leds u <> [] ->
             forallb VirtualLED.isOn (UserInterface.leds u) = true ->
             UserInterface.turnAllLEDsOn u
             = (u, [UserInterface.Warning "Operation Failed"
                                          "<b>All LEDs are already turned on.</b>"])).
  { intros u Hu Hall. unfold UserInterface.turnAllLEDsOn.
    destruct (UserInterface.leds u) as [| x0 r0] eqn:E; [contradiction |].
    rewrite <- E in *. rewrite Hall. reflexivity. }
  destruct (forallb VirtualLED.isOn (UserInterface.leds ui)) eqn:Hall.
  - rewrite (Hwarn ui Hne Hall). cbn [fst]. apply Hwarn; assumption.
  - assert (H1 : fst (UserInterface.turnAllLEDsOn ui)
                 = UserInterface.mk
                     (map (fun led =>
                             VirtualLED.stopOffTimer
                               (if negb (VirtualLED.isOn led)
                                then VirtualLED.setColor led QColor.white
                                else led))
                          (UserInterface.leds ui))
                     (UserInterface.nextLedId ui)).
    { unfold UserInterface.turnAllLEDsOn.
      destruct (UserInterface.leds ui) as [| x0 r0] eqn:E; [contradiction |].
      rewrite <- E in *. rewrite Hall. reflexivity. }
    rewrite H1. apply Hwarn; cbn [UserInterface.leds].
    + intros Hmap. apply map_eq_nil in Hmap. contradiction.
    + apply forallb_forall. intros y Hy.
      apply in_map_iff in Hy. destruct Hy as [x [<- _]].
      destruct (turnedOn_one x) as [Hon _]. exact Hon.
Qed.

Lemma turnAllLEDsOn_twice_witness :
  snd (UserInterface.turnAllLEDsOn
         (fst (UserInterface.turnAllLEDsOn uiFirstOnTimed)))
  = [UserInterface.Warning "Operation Failed"
                           "<b>All LEDs are already turned on.</b>"].
Proof.
  rewrite (turnAllLEDsOn_twice uiFirstOnTimed); [reflexivity | discriminate].
Defined.

(** ** The grid *)

Lemma gridFrom_spec (l : list VirtualLED.t) :
  forall a : nat,
    Z.of_nat a + Z.of_nat (length l) <= INT_MAX ->
    UserInterface.gridFrom (Z.of_nat a) l
    = map (fun k => (Z.of_nat k / 5, Z.of_nat k mod 5)) (seq a (length l)).
Proof.
  induction l as [| x r IH]; intros a H; [reflexivity |].
  cbn [UserInterface.gridFrom length seq map].
  unfold UserInterface.cols.
  rewrite Z.quot_div_nonneg, Z.rem_mod_nonneg by lia.
  f_equal.
  destruct r as [| y r']; [reflexivity |].
  replace (wrap32 (Z.of_nat a + 1)) with (Z.of_nat (S a)).
  - apply IH. cbn [length] in *. lia.
  - rewrite wrap32_small; [lia |].
    cbn [length] in H. unfold INT_MAX in H. lia.
Qed.

Lemma cell_index (k : nat) (row col : Z) :
  (Z.of_nat k / 5, Z.of_nat k mod 5) = (row, col) ->
  0 <= row /\ 0 <= col < 5 /\ row * 5 + col = Z.of_nat k.
Proof.
  intros H. injection H as <- <-.
  pose proof (Z.mod_pos_bound (Z.of_nat k) 5 ltac:(lia)).
  pose proof (Z.div_mod (Z.of_nat k) 5 ltac:(lia)).
  split; [apply Z.div_pos; lia | split; lia].
Qed.

(** X22.  For a collection of at most [INT_MAX] LEDs, [updateGridLayout]
    places the LED at position [k] of the list in row [k / 5], column
    [k mod 5]: every LED gets a cell, columns run from 0 to 4, the cell
    determines the position ([row * 5 + col = k]), and no two LEDs share
    a cell. *)
Theorem updateGridLayout_cells (ui : UserInterface.t) :
  let n := length (UserInterface.leds ui) in
  Z.of_nat n <= INT_MAX ->
  length (UserInterface.updateGridLayout ui) = n
  /\ (forall k, (k < n)%nat ->
        nth_error (UserInterface.updateGridLayout ui) k
        = Some (Z.of_nat k / 5, Z.of_nat k mod 5))
  /\ (forall k row col,
        nth_error (UserInterface.updateGridLayout ui) k = Some (row, col) ->
        0 <= row /\ 0 <= col < 5 /\ row * 5 + col = Z.of_nat k)
  /\ NoDup (UserInterface.updateGridLayout ui).
Proof.
  intros n Hn. subst n. unfold UserInterface.updateGridLayout.
  pose proof (gridFrom_spec (UserInterface.leds ui) 0 ltac:(simpl; lia)) as Hg.
  change (Z.of_nat 0) with 0 in Hg. rewrite Hg. clear Hg.
  set (n := length (UserInterface.leds ui)).
  assert (Hnth : forall k, (k < n)%nat ->
            nth_error (map (fun k => (Z.of_nat k / 5, Z.of_nat k mod 5)) (seq 0 n)) k
            = Some (Z.of_nat k / 5, Z.of_nat k mod 5)).
  { intros k Hk.
    rewrite nth_error_map, nth_error_nth' with (d := O)
      by (rewrite length_seq; lia).
    rewrite seq_nth by lia. reflexivity. }
  assert (Hcell : forall k row col,
            nth_error (map (fun k => (Z.of_nat k / 5, Z.of_nat k mod 5)) (seq 0 n)) k
            = Some (row, col) ->
            0 <= row /\ 0 <= col < 5 /\ row * 5 + col = Z.of_nat k).
  { intros k row col Hk.
    assert (Hlt : (k < n)%nat).
    { assert (Hsome : nth_error
                (map (fun k => (Z.of_nat k / 5, Z.of_nat k mod 5)) (seq 0 n)) k
                <> None) by congruence.
      apply nth_error_Some in Hsome.
      rewrite length_map, length_seq in Hsome. exact Hsome. }
    rewrite (Hnth k Hlt) in Hk. injection Hk as Hr Hc.
    apply cell_index. congruence. }
  split; [rewrite length_map, length_seq; reflexivity |].
  split; [exact Hnth |]. split; [exact Hcell |].
  apply NoDup_nth_error. intros i j Hi Hij.
  rewrite length_map, length_seq in Hi.
  rewrite (Hnth i Hi) in Hij. symmetry in Hij.
  destruct (Hcell j _ _ Hij) as [_ [_ Hj]].
  destruct (cell_index i _ _ eq_refl) as [_ [_ Hi']].
  lia.
Qed.

Lemma updateGridLayout_cells_witness :
  nth_error
    (UserInterface.updateGridLayout
       (UserInterface.run uiThree
          [UserInterface.AddNewLED; UserInterface.AddNewLED;
           UserInterface.AddNewLED; UserInterface.AddNewLED]))
    6
  = Some (1, 1).
Proof.
  destruct (updateGridLayout_cells
              (UserInterface.run uiThree
                 [UserInterface.AddNewLED; UserInterface.AddNewLED;
                  UserInterface.AddNewLED; UserInterface.AddNewLED]))
    as [_ [H _]].
  - discriminate.
  - rewrite (H 6%nat); [reflexivity |]. simpl. lia.
Defined.
